(** * pitivi_mover: relocating asset references in Pitivi project files

    A shallow embedding of [pitivi_mover.py] and the properties of its
    three functions [backup_file], [update_paths] (with its local helpers
    [update_uri] and [file_exists]) and [main].

    Conventions of the embedding.
    - A Python [str] is a Rocq [string] holding the UTF-8 encoding of the
      text, so that an ASCII character is one [ascii] and every other
      character is a run of bytes above 127.  Substring search and
      replacement on the bytes agree with the same operations on the
      characters because UTF-8 is self-synchronising.
    - Printing appends one entry to [stdout] per call of [print].
    - An exception is the [Raise] outcome of a computation in the state
      monad [M]; the state reached when it was raised is kept, as Python
      keeps the mutations made before the exception.
    - The functions of [urllib.parse], [os.path], [shutil] and
      [xml.etree.ElementTree] the script calls are embedded from CPython 3.11
      to the extent the script exercises them.
    - The file system carries out what it is asked: a call of [os] or
      [shutil] fails for a missing path or for a directory where a regular
      file is needed, not for a full disk or a missing permission.  The
      properties that say a call returns rest on this; those that speak of
      returning runs only, of the exceptions the content of a document
      gives rise to, or of the paths a call leaves alone, do not.
    - What [tree.write] puts into a file is not taken to read back as the
      tree that was written: the serialiser is a parameter of the
      development, see [ElementTree_write]. *)

From Stdlib Require Import Ascii NArith.
From stdpp Require Import base option strings list gmap.

Set Warnings "-register-all".

(** ** Python string operations *)

Module PyStr.

Definition ord (c : ascii) : N := N_of_ascii c.

Definition char_in (c : ascii) (chars : string) : bool :=
  bool_decide (c ∈ String.list_ascii_of_string chars).

(** [s.startswith(p)] *)
Fixpoint startswith (p s : string) : bool :=
  match p, s with
  | "", _ => true
  | String _ _, "" => false
  | String a p', String b s' => bool_decide (a = b) && startswith p' s'
  end.

(** [s[n:]] *)
Fixpoint drop (n : nat) (s : string) : string :=
  match n, s with
  | 0, _ => s
  | S _, "" => ""
  | S n', String _ s' => drop n' s'
  end.

(** [s[:n]] *)
Fixpoint take (n : nat) (s : string) : string :=
  match n, s with
  | 0, _ => ""
  | S _, "" => ""
  | S n', String c s' => String c (take n' s')
  end.

(** [old in s] *)
Fixpoint contains (old s : string) : bool :=
  startswith old s ||
  match s with
  | "" => false
  | String _ s' => contains old s'
  end.

(** [s.replace(old, new, 1)]: the leftmost occurrence of [old] is replaced;
    an empty [old] occurs at position 0. *)
Fixpoint replace1 (old new s : string) : string :=
  if startswith old s then new +:+ drop (String.length old) s
  else match s with
       | "" => ""
       | String c s' => String c (replace1 old new s')
       end.

(** [s.find(c)] for a one-character [c]; [None] stands for -1. *)
Fixpoint find (c : ascii) (s : string) : option nat :=
  match s with
  | "" => None
  | String b s' => if bool_decide (b = c) then Some 0 else S <$> find c s'
  end.

(** [s.split(c, 1)] when [c in s]: the text before and after the first [c]. *)
Definition split1 (c : ascii) (s : string) : option (string * string) :=
  i ← find c s; Some (take i s, drop (S i) s).

(** [s.replace(c, "")] for a one-character [c]. *)
Fixpoint remove_char (c : ascii) (s : string) : string :=
  match s with
  | "" => ""
  | String b s' =>
      if bool_decide (b = c) then remove_char c s' else String b (remove_char c s')
  end.

(** [s.lstrip(chars)] for the characters that satisfy [strip]. *)
Fixpoint lstrip (strip : ascii → bool) (s : string) : string :=
  match s with
  | "" => ""
  | String b s' => if strip b then lstrip strip s' else s
  end.

Definition forallb (P : ascii → bool) (s : string) : bool :=
  List.forallb P (String.list_ascii_of_string s).

Definition map (f : ascii → ascii) (s : string) : string :=
  String.string_of_list_ascii (List.map f (String.list_ascii_of_string s)).

Definition is_upper (c : ascii) : bool := (65 <=? ord c)%N && (ord c <=? 90)%N.
Definition is_lower (c : ascii) : bool := (97 <=? ord c)%N && (ord c <=? 122)%N.
Definition is_digit (c : ascii) : bool := (48 <=? ord c)%N && (ord c <=? 57)%N.

(** [c.isascii() and c.isalpha()] *)
Definition is_ascii_alpha (c : ascii) : bool := is_upper c || is_lower c.

(** [c.isascii()] *)
Definition is_ascii (c : ascii) : bool := (ord c <? 128)%N.

(** [s.lower()] on the ASCII letters, the only ones a scheme can hold. *)
Definition lower (s : string) : string :=
  map (λ c, if is_upper c then ascii_of_N (ord c + 32) else c) s.

End PyStr.

(** ** Exceptions and the state monad *)

Inductive exn :=
  | KeyError (key : string)
  | ValueError
  | FileNotFoundError (path : string)
  | IsADirectoryError (path : string)
  | ParseError (path : string)
  | RecursionError.

Inductive outcome (A : Type) :=
  | Ok (a : A)
  | Raise (e : exn).
Arguments Ok {A} a.
Arguments Raise {A} e.

Definition M (S A : Type) : Type := S → outcome A * S.

Definition ret {S A} (a : A) : M S A := λ s, (Ok a, s).
Definition raise {S A} (e : exn) : M S A := λ s, (Raise e, s).
Definition bind {S A B} (m : M S A) (k : A → M S B) : M S B :=
  λ s, match m s with
       | (Ok a, s') => k a s'
       | (Raise e, s') => (Raise e, s')
       end.
Definition gets {S A} (f : S → A) : M S A := λ s, (Ok (f s), s).
Definition modify {S} (f : S → S) : M S unit := λ s, (Ok tt, f s).

Declare Scope py_scope.
Delimit Scope py_scope with py.
Notation "x ←ᵖ m ; k" := (bind m (λ x, k))
  (at level 20, m at level 100, k at level 200, right associativity) : py_scope.
Notation "m ;ᵖ k" := (bind m (λ _, k))
  (at level 100, k at level 200, right associativity) : py_scope.

(** [for x in xs: body x] *)
Fixpoint for_each {S A} (xs : list A) (body : A → M S unit) : M S unit :=
  match xs with
  | [] => ret tt
  | x :: xs' => bind (body x) (λ _, for_each xs' body)
  end.

(** ** [urllib.parse] *)

Record SplitResult := {
  scheme : string;
  netloc : string;
  path : string;
  query : string;
  fragment : string;
}.

(** [uri["path"] = p] on the dictionary made by [_asdict()]. *)
Definition set_path (p : string) (u : SplitResult) : SplitResult :=
  {| scheme := scheme u; netloc := netloc u; path := p;
     query := query u; fragment := fragment u |}.

Module Urllib.

Definition scheme_chars : string :=
  "abcdefghijklmnopqrstuvwxyzABCDEFGHIJKLMNOPQRSTUVWXYZ0123456789+-.".

Definition uses_netloc : list string :=
  [""; "ftp"; "http"; "gopher"; "nntp"; "telnet"; "imap"; "wais"; "file";
   "mms"; "https"; "shttp"; "snews"; "prospero"; "rtsp"; "rtspu"; "rsync";
   "svn"; "svn+ssh"; "sftp"; "nfs"; "git"; "git+ssh"; "ws"; "wss"].

(** [_WHATWG_C0_CONTROL_OR_SPACE]: the characters 0x00 to 0x20. *)
Definition c0_control_or_space (c : ascii) : bool := (PyStr.ord c <=? 32)%N.

(** [_UNSAFE_URL_BYTES_TO_REMOVE]: tab, carriage return, line feed. *)
Definition remove_unsafe (url : string) : string :=
  PyStr.remove_char "010" (PyStr.remove_char "013" (PyStr.remove_char "009" url)).

(** The scheme test of [urlsplit]: the text before the first colon, when
    it is not empty, starts with an ASCII letter and holds scheme
    characters only. *)
Definition split_scheme (url : string) : string * string :=
  match PyStr.find ":" url with
  | Some i =>
      if bool_decide (0 < i)
         && match url with String c _ => PyStr.is_ascii_alpha c | "" => false end
         && PyStr.forallb (λ c, PyStr.char_in c scheme_chars) (PyStr.take i url)
      then (PyStr.lower (PyStr.take i url), PyStr.drop (S i) url)
      else ("", url)
  | None => ("", url)
  end.

(** The text up to the first of [/], [?], [#]: [url[:delim]]. *)
Fixpoint upto_delim (url : string) : string :=
  match url with
  | "" => ""
  | String c s => if PyStr.char_in c "/?#" then "" else String c (upto_delim s)
  end.

(** [_splitnetloc(url, 2)] *)
Definition splitnetloc (url : string) : string * string :=
  let rest := PyStr.drop 2 url in
  let domain := upto_delim rest in
  (domain, PyStr.drop (String.length domain) rest).

(** [urlunsplit] *)
Definition urlunsplit (u : SplitResult) : string :=
  let url := path u in
  let url :=
    if bool_decide (netloc u ≠ "")
       || (bool_decide (scheme u ≠ "") && bool_decide (scheme u ∈ uses_netloc)
           && negb (PyStr.startswith "//" url))
    then
      let url := if bool_decide (url ≠ "") && negb (PyStr.startswith "/" url)
                 then "/" +:+ url else url in
      "//" +:+ netloc u +:+ url
    else url in
  let url := if bool_decide (scheme u ≠ "") then scheme u +:+ ":" +:+ url else url in
  let url := if bool_decide (query u ≠ "") then url +:+ "?" +:+ query u else url in
  if bool_decide (fragment u ≠ "") then url +:+ "#" +:+ fragment u else url.

(** *** Percent-encoding *)

Definition hexval (c : ascii) : option N :=
  let n := PyStr.ord c in
  if PyStr.is_digit c then Some (n - 48)%N
  else if (65 <=? n)%N && (n <=? 70)%N then Some (n - 55)%N
  else if (97 <=? n)%N && (n <=? 102)%N then Some (n - 87)%N
  else None.

Definition hexdigit (n : N) : ascii :=
  if (n <? 10)%N then ascii_of_N (n + 48) else ascii_of_N (n + 55).

(** [unquote_to_bytes]: a [%] followed by two hexadecimal digits is the
    byte they denote; any other [%] stays. *)
Fixpoint unquote_to_bytes (s : string) : string :=
  match s with
  | "" => ""
  | String c s1 =>
      if bool_decide (c = "%"%char) then
        match s1 with
        | String h (String l s3) =>
            match hexval h, hexval l with
            | Some a, Some b => String (ascii_of_N (16 * a + b)) (unquote_to_bytes s3)
            | _, _ => String c (unquote_to_bytes s1)
            end
        | _ => String c (unquote_to_bytes s1)
        end
      else String c (unquote_to_bytes s1)
  end.

(** U+FFFD, the replacement character, in UTF-8. *)
Definition replacement : string :=
  String (ascii_of_N 239) (String (ascii_of_N 191) (String (ascii_of_N 189) "")).

Definition is_continuation (c : ascii) : bool :=
  (128 <=? PyStr.ord c)%N && (PyStr.ord c <=? 191)%N.

(** [bytes.decode("utf-8", "replace")], the result again in UTF-8: a
    well-formed sequence is kept, and each ill-formed one (an invalid start
    byte, a sequence cut by an invalid continuation byte or by the end of
    the data) becomes one replacement character. *)
Fixpoint decode_replace (s : string) : string :=
  match s with
  | "" => ""
  | String c0 s1 =>
      let b0 := PyStr.ord c0 in
      if (b0 <? 128)%N then String c0 (decode_replace s1)
      else if (b0 <? 194)%N then replacement +:+ decode_replace s1
      else if (b0 <? 224)%N then
        match s1 with
        | "" => replacement
        | String c1 s2 =>
            if is_continuation c1 then String c0 (String c1 (decode_replace s2))
            else replacement +:+ decode_replace s1
        end
      else if (b0 <? 240)%N then
        match s1 with
        | "" => replacement
        | String c1 s2 =>
            if negb (is_continuation c1)
               || (if (PyStr.ord c1 <? 160)%N then (b0 =? 224)%N else (b0 =? 237)%N)
            then replacement +:+ decode_replace s1
            else match s2 with
                 | "" => replacement
                 | String c2 s3 =>
                     if is_continuation c2
                     then String c0 (String c1 (String c2 (decode_replace s3)))
                     else replacement +:+ decode_replace s2
                 end
        end
      else if (b0 <? 245)%N then
        match s1 with
        | "" => replacement
        | String c1 s2 =>
            if negb (is_continuation c1)
               || (if (PyStr.ord c1 <? 144)%N then (b0 =? 240)%N else (b0 =? 244)%N)
            then replacement +:+ decode_replace s1
            else match s2 with
                 | "" => replacement
                 | String c2 s3 =>
                     if negb (is_continuation c2) then replacement +:+ decode_replace s2
                     else match s3 with
                          | "" => replacement
                          | String c3 s4 =>
                              if is_continuation c3
                              then String c0 (String c1 (String c2
                                     (String c3 (decode_replace s4))))
                              else replacement +:+ decode_replace s3
                          end
                 end
        end
      else replacement +:+ decode_replace s1
  end.

(** The loop of [unquote] over the pieces of [_asciire.split(string)]:
    [run] is the ASCII run read so far; it is unquoted and decoded when a
    non-ASCII character or the end of the string closes it. *)
Fixpoint unquote_runs (run s : string) : string :=
  match s with
  | "" => decode_replace (unquote_to_bytes run)
  | String c s' =>
      if PyStr.is_ascii c then unquote_runs (run +:+ String c "") s'
      else decode_replace (unquote_to_bytes run) +:+ String c (unquote_runs "" s')
  end.

(** [unquote(string)] *)
Definition unquote (s : string) : string :=
  if PyStr.contains "%" s then unquote_runs "" s else s.

(** [_ALWAYS_SAFE] and the default [safe="/"] of [quote]. *)
Definition always_safe : string :=
  "ABCDEFGHIJKLMNOPQRSTUVWXYZabcdefghijklmnopqrstuvwxyz0123456789_.-~".

Definition quote_byte (c : ascii) : string :=
  if PyStr.char_in c always_safe || PyStr.char_in c "/" then String c ""
  else String "%" (String (hexdigit (PyStr.ord c / 16))
                     (String (hexdigit (PyStr.ord c mod 16)) "")).

(** [quote(string)] *)
Fixpoint quote (s : string) : string :=
  match s with
  | "" => ""
  | String c s' => quote_byte c +:+ quote s'
  end.

End Urllib.


(** ** The file system, [os.path] and [shutil] *)

(** [xml.etree.ElementTree.Element]: tag, attribute dictionary, text, tail
    and children.  The default parser drops comments and processing
    instructions, so a parsed tree holds elements only. *)
Inductive Element :=
  | Elem (tag : string) (attrib : gmap string string)
         (text tail : option string) (children : list Element).

Definition tag (e : Element) : string := let 'Elem t _ _ _ _ := e in t.
Definition attrib (e : Element) : gmap string string := let 'Elem _ a _ _ _ := e in a.
Definition text (e : Element) : option string := let 'Elem _ _ x _ _ := e in x.
Definition tail (e : Element) : option string := let 'Elem _ _ _ y _ := e in y.
Definition children (e : Element) : list Element := let 'Elem _ _ _ _ cs := e in cs.

(** What a regular file holds, as far as the script can tell by reading
    it: a well-formed document, identified with the element tree
    [ElementTree.parse] builds from it, or text that is not well-formed
    XML. *)
Inductive data :=
  | Doc (root : Element)
  | Raw (bytes : string).

Inductive node :=
  | File (content : data)
  | Dir.

(** The steps [main] takes on a project file; [journal] below records them
    in the order they start.  The journal is a ghost of the model: no
    function reads it. *)
Inductive step :=
  | Parse (file : string)
  | Backup (file : string)
  | Rewrite (file : string)
  | Persist (file : string).

(** The world a run acts on: the files by path (a path names one file; the
    aliases [.], [..], doubled separators and symbolic links create are not
    modelled), the text printed so far, oldest first, and the journal. *)
Record world := {
  fs : gmap string node;
  stdout : list string;
  journal : list step;
}.

Definition set_fs (f : gmap string node → gmap string node) (w : world) : world :=
  {| fs := f (fs w); stdout := stdout w; journal := journal w |}.

(** [print(line)] *)
Definition print (line : string) : M world unit :=
  modify (λ w, {| fs := fs w; stdout := stdout w ++ [line]; journal := journal w |}).

Definition enter (s : step) : M world unit :=
  modify (λ w, {| fs := fs w; stdout := stdout w; journal := journal w ++ [s] |}).

(** [os.path.exists(path)] *)
Definition os_path_exists (path : string) : M world bool :=
  gets (λ w, bool_decide (is_Some (fs w !! path))).

(** [os.path.join(a, b)] of [posixpath] *)
Definition os_path_join (a b : string) : string :=
  if PyStr.startswith "/" b then b
  else if bool_decide (a = "") || PyStr.startswith "/" (String.rev a) then a +:+ b
  else a +:+ "/" +:+ b.

(** Where [os.rename(src, dst)] of a directory takes an entry [k] that
    lies below it. *)
Definition rekey (src dst k : string) : string :=
  if PyStr.startswith (src +:+ "/") k then dst +:+ PyStr.drop (String.length src) k
  else k.

(** [shutil.move(src, dst)] when [dst] is not an existing directory, which
    [backup_file] has just checked: [os.rename(src, dst)].  A regular file
    takes the place of [dst]; a directory moves with all it holds. *)
Definition shutil_move (src dst : string) : M world unit :=
  (n ←ᵖ gets (λ w, fs w !! src);
   match n with
   | None => raise (FileNotFoundError src)
   | Some (File c) => modify (set_fs (λ m, <[dst := File c]> (delete src m)))
   | Some Dir =>
       modify (set_fs (λ m, <[dst := Dir]> (kmap (rekey src dst) (delete src m))))
   end)%py.

(** [shutil.copy2(src, dst)] when [dst] is not an existing directory: the
    content of the regular file [src] is written to [dst].  Metadata is not
    modelled, and neither is a copy that the medium cuts short: in
    [backup_file] such a failure would come after [shutil.move] has taken
    the original away, with nothing to bring it back. *)
Definition shutil_copy2 (src dst : string) : M world unit :=
  (n ←ᵖ gets (λ w, fs w !! src);
   match n with
   | None => raise (FileNotFoundError src)
   | Some Dir => raise (IsADirectoryError src)
   | Some (File c) => modify (set_fs (λ m, <[dst := File c]> m))
   end)%py.

(** ** [xml.etree.ElementTree] *)

(** [ElementTree.parse(path)]; the result stands for the tree object, whose
    root it is. *)
Definition ElementTree_parse (path : string) : M world Element :=
  (n ←ᵖ gets (λ w, fs w !! path);
   match n with
   | None => raise (FileNotFoundError path)
   | Some Dir => raise (IsADirectoryError path)
   | Some (File (Raw _)) => raise (ParseError path)
   | Some (File (Doc root)) => ret root
   end)%py.

(** A reference to an element of a tree: the child indices that lead to it
    from the root.  The script changes attributes only, never the shape of
    the tree, so a reference keeps naming the same element object. *)
Definition ref : Type := list nat.

Fixpoint lookup_at (r : ref) (e : Element) : option Element :=
  match r with
  | [] => Some e
  | i :: r' => c ← children e !! i; lookup_at r' c
  end.

Fixpoint modify_at (f : Element → Element) (r : ref) (e : Element) : Element :=
  match r with
  | [] => f e
  | i :: r' =>
      let 'Elem t a x y cs := e in Elem t a x y (alter (modify_at f r') i cs)
  end.

(** The references [found] collects in each of the children [cs], the first
    of which has index [i], as seen from their parent. *)
Definition iter_below (found : Element → list ref) : nat → list Element → list ref :=
  fix below i cs :=
    match cs with
    | [] => []
    | c :: cs' => ((i ::.) <$> found c) ++ below (S i) cs'
    end.

(** [elem.iter(tag)]: the element itself and its descendants, in document
    order, that carry [tag]. *)
Fixpoint iter (t : string) (e : Element) : list ref :=
  let 'Elem t' _ _ _ cs := e in
  (if bool_decide (t' = t) then [[]] else []) ++ iter_below (iter t) 0 cs.

(** [tree.findall(".//" + tag)]: the selector of [ElementPath] for [//]
    yields what [root.iter(tag)] yields except the root itself. *)
Definition findall (t : string) (root : Element) : list ref :=
  filter (λ r, r ≠ []) (iter t root).

(** The state [update_paths] runs in: the tree it was given and the world. *)
Definition doc_state : Type := Element * world.

(** A computation on the world, run while a tree is at hand. *)
Definition in_world {A} (m : M world A) : M doc_state A :=
  λ '(t, w), let '(o, w') := m w in (o, (t, w')).

(** [elem.attrib[key]] *)
Definition attrib_getitem (r : ref) (key : string) : M doc_state string :=
  λ '(t, w),
    match lookup_at r t ≫= (λ e, attrib e !! key) with
    | Some v => (Ok v, (t, w))
    | None => (Raise (KeyError key), (t, w))
    end.

Definition set_attrib (key value : string) (e : Element) : Element :=
  let 'Elem t a x y cs := e in Elem t (<[key := value]> a) x y cs.

(** [elem.attrib[key] = value] *)
Definition attrib_setitem (r : ref) (key value : string) : M doc_state unit :=
  modify (λ '(t, w), (modify_at (set_attrib key value) r t, w)).

(** [elem.get(key)], [None] when the attribute is missing. *)
Definition Element_get (r : ref) (key : string) : M doc_state (option string) :=
  gets (λ '(t, _), lookup_at r t ≫= (λ e, attrib e !! key)).

(** The truth value of [elem.get(key)]: [None] and the empty string are false. *)
Definition truthy (v : option string) : bool :=
  match v with
  | Some s => bool_decide (s ≠ "")
  | None => false
  end.

(** ** The script *)

(** The command line: [parser.parse_args()]. *)
Record arguments := {
  xges_path : string;
  old_path : string;
  new_path : string;
}.

Definition dquote : string := String "034" "".
Definition newline : string := String "010" "".

Section Mover.

(** Two checks of [urlsplit] on the network location rest on tables that are
    not part of the script or of this development: the address syntax of
    [ipaddress] and the Unicode normalisation tables. *)

(** Whether [_check_bracketed_netloc(netloc)] raises [ValueError]. *)
Variable check_bracketed_netloc : string → bool.

(** [unicodedata.normalize("NFKC", s)] *)
Variable unicodedata_normalize_NFKC : string → string.

(** Whether [_checknetloc(netloc)] raises [ValueError]. *)
Definition checknetloc (netloc : string) : bool :=
  if bool_decide (netloc = "") || PyStr.forallb PyStr.is_ascii netloc then false
  else
    let n := PyStr.remove_char "?" (PyStr.remove_char "#"
               (PyStr.remove_char ":" (PyStr.remove_char "@" netloc))) in
    let netloc2 := unicodedata_normalize_NFKC n in
    if bool_decide (n = netloc2) then false
    else List.existsb (λ c, PyStr.contains (String c "") netloc2)
           (String.list_ascii_of_string "/?#@:").

(** [urlsplit(url)] *)
Definition urlsplit (url : string) : outcome SplitResult :=
  let url := PyStr.lstrip Urllib.c0_control_or_space url in
  let url := Urllib.remove_unsafe url in
  let '(scheme, url) := Urllib.split_scheme url in
  let located : outcome (string * string) :=
    if PyStr.startswith "//" url then
      let '(netloc, url) := Urllib.splitnetloc url in
      let opens := PyStr.contains "[" netloc in
      let closes := PyStr.contains "]" netloc in
      if (opens && negb closes) || (closes && negb opens) then Raise ValueError
      else if opens && closes && check_bracketed_netloc netloc then Raise ValueError
      else Ok (netloc, url)
    else Ok ("", url) in
  match located with
  | Raise e => Raise e
  | Ok (netloc, url) =>
      let '(url, fragment) :=
        match PyStr.split1 "#" url with Some p => p | None => (url, "") end in
      let '(url, query) :=
        match PyStr.split1 "?" url with Some p => p | None => (url, "") end in
      if checknetloc netloc then Raise ValueError
      else Ok {| scheme := scheme; netloc := netloc; path := url;
                 query := query; fragment := fragment |}
  end.

(** [backup_file(orig_path)] *)
Definition backup_file (orig_path : string) : M world unit :=
  (let backup_path := orig_path +:+ ".original" in
   b ←ᵖ os_path_exists backup_path;
   if (b : bool) then
     print ("Skipping backup of " +:+ orig_path +:+ " because " +:+ backup_path
            +:+ " already exists.")
   else
     (print ("Moving " +:+ dquote +:+ orig_path +:+ dquote +:+ newline
             +:+ "    to " +:+ dquote +:+ backup_path +:+ dquote);ᵖ
      shutil_move orig_path backup_path;ᵖ
      shutil_copy2 backup_path orig_path))%py.

(** [file_exists(path)] of [update_paths]; the implicit [None] of the
    [else] branch is the false value. *)
Definition file_exists (path : string) : M world bool :=
  (b ←ᵖ os_path_exists path;
   if (b : bool) then ret true
   else (print ("Warning: " +:+ path +:+ " does not exist; skipping.");ᵖ
         ret false))%py.

(** [update_uri(uri_str)] of [update_paths(tree, old_path, new_path)] *)
Definition update_uri (old_path new_path uri_str : string) : M world string :=
  match urlsplit uri_str with
  | Raise e => raise e
  | Ok uri =>
      if bool_decide (scheme uri = "file") then
        (let path := PyStr.replace1 old_path new_path (Urllib.unquote (path uri)) in
         found ←ᵖ file_exists path;
         let uri := if (found : bool) then set_path (Urllib.quote path) uri else uri in
         ret (Urllib.urlunsplit uri))%py
      else ret uri_str
  end.

(** The body of the loop over the assets. *)
Definition update_asset (old_path new_path : string) (asset : ref) : M doc_state unit :=
  (id ←ᵖ attrib_getitem asset "id";
   id' ←ᵖ in_world (update_uri old_path new_path id);
   attrib_setitem asset "id" id';ᵖ
   proxy ←ᵖ Element_get asset "proxy-id";
   if truthy proxy then
     (proxy_id ←ᵖ attrib_getitem asset "proxy-id";
      proxy_id' ←ᵖ in_world (update_uri old_path new_path proxy_id);
      attrib_setitem asset "proxy-id" proxy_id')
   else ret tt)%py.

(** The body of the loop over the clips. *)
Definition update_clip (old_path new_path : string) (clip : ref) : M doc_state unit :=
  (asset_id ←ᵖ attrib_getitem clip "asset-id";
   asset_id' ←ᵖ in_world (update_uri old_path new_path asset_id);
   attrib_setitem clip "asset-id" asset_id')%py.

(** [update_paths(tree, old_path, new_path)]; each [findall] builds its
    list before the loop over it starts. *)
Definition update_paths (old_path new_path : string) : M doc_state unit :=
  (assets ←ᵖ gets (λ '(t, _), findall "asset" t);
   for_each assets (update_asset old_path new_path);ᵖ
   clips ←ᵖ gets (λ '(t, _), findall "clip" t);
   for_each clips (update_clip old_path new_path))%py.

(** Running a computation on a tree from within [main]: the tree object the
    computation leaves behind is returned. *)
Definition on_tree (tree : Element) (m : M doc_state unit) : M world Element :=
  λ w, match m (tree, w) with
       | (Ok _, (tree', w')) => (Ok tree', w')
       | (Raise e, (_, w')) => (Raise e, w')
       end.

(** [tree.write(path)], for a path that names a regular file or nothing,
    opens the file for writing, which empties it, and has [_serialize_xml]
    write the tree into it piece by piece, calling itself for the children
    of each element.  Two things about the serialiser are not part of the
    script or of this development. *)

(** What reading the file tells once [tree.write] is over, whether the
    serialiser came to its end or not.  It need not be the document [tree]:
    a carriage return in a text is written as it is and read back as a line
    feed, and what a serialiser that did not come to its end has written is
    not well-formed. *)
Variable serialized : Element → data.

(** Whether the serialiser runs out of stack on its way down the tree. *)
Variable serializer_overflows : Element → bool.

Definition ElementTree_write (tree : Element) (path : string) : M world unit :=
  (modify (set_fs (λ m, <[path := File (serialized tree)]> m));ᵖ
   if serializer_overflows tree then raise RecursionError else ret tt)%py.

(** The body of the loop of [main] for one of the files found. *)
Definition process_file (args : arguments) (xges_file : string) : M world unit :=
  (let xges_file_path := os_path_join (xges_path args) xges_file in
   enter (Parse xges_file_path);ᵖ
   tree ←ᵖ ElementTree_parse xges_file_path;
   enter (Backup xges_file_path);ᵖ
   backup_file xges_file_path;ᵖ
   print ("Changing " +:+ dquote +:+ old_path args +:+ dquote +:+ newline
          +:+ "      to " +:+ dquote +:+ new_path args +:+ dquote +:+ newline
          +:+ "      in " +:+ dquote +:+ xges_file_path +:+ dquote);ᵖ
   enter (Rewrite xges_file_path);ᵖ
   tree' ←ᵖ on_tree tree (update_paths (old_path args) (new_path args));
   enter (Persist xges_file_path);ᵖ
   ElementTree_write tree' xges_file_path;ᵖ
   print ("Done" +:+ newline))%py.

(** [main()], given the parsed command line and [xges_files], the relative
    paths [glob.iglob] yields under [xges_path]. *)
Definition main (args : arguments) (xges_files : list string) : M world unit :=
  for_each xges_files (process_file args).

(** The value [update_uri] returns for [uri_str] over the file system [m];
    [update_uri_outcome] below shows the world plays no other part in it. *)
Definition update_uri_result (m : gmap string node) (old_path new_path uri_str : string)
  : outcome string :=
  (update_uri old_path new_path uri_str {| fs := m; stdout := []; journal := [] |}).1.

(** ** Sample data *)

Definition world_of (m : gmap string node) : world :=
  {| fs := m; stdout := []; journal := [] |}.

Definition clip_uri : string := "file:///media/old/clip1.mp4".
Definition leaf (t : string) (a : gmap string string) : Element := Elem t a None None [].

(** A project with one asset, which has a proxy, and one clip. *)
Definition sample_project : Element :=
  Elem "ges" ∅ None None
    [Elem "project" ∅ None None
       [Elem "ressources" ∅ None None
          [leaf "asset" {[ "id" := clip_uri;
                           "proxy-id" := "file:///proxies/old/clip1.proxy.mp4";
                           "extractable-type-name" := "GESUriClip" ]}];
        Elem "timeline" ∅ None None
          [Elem "layer" {[ "priority" := "0" ]} (Some "clips") None
             [leaf "clip" {[ "asset-id" := clip_uri; "start" := "0" ]}]]]].

(** The media after the move: the clip is at its new place, its proxy is not. *)
Definition moved_media : gmap string node :=
  {[ "/media" := Dir; "/media/new" := Dir;
     "/media/new/clip1.mp4" := File (Raw "video") ]}.

(** Two project files below [proj]: a well-formed one and a damaged one. *)
Definition project_files : gmap string node :=
  {[ "proj" := Dir;
     "proj/good.xges" := File (Doc sample_project);
     "proj/bad.xges" := File (Raw "<ges") ]}.

Definition sample_arguments : arguments :=
  {| xges_path := "proj"; old_path := "old"; new_path := "new" |}.

(** The media when only the proxy has been moved. *)
Definition moved_proxies : gmap string node :=
  {[ "/proxies" := Dir; "/proxies/new" := Dir;
     "/proxies/new/clip1.proxy.mp4" := File (Raw "proxy") ]}.

(** Documents that break the schema: an asset without [id] and a clip
    without [asset-id], each below the root. *)
Definition asset_without_id : Element :=
  Elem "ges" ∅ None None [leaf "asset" {[ "extractable-type-name" := "GESUriClip" ]}].

Definition clip_without_asset_id : Element :=
  Elem "ges" ∅ None None [leaf "clip" {[ "start" := "0" ]}].

(** Documents whose root is itself an asset. *)
Definition asset_at_root : Element := leaf "asset" {[ "id" := clip_uri ]}.
Definition bare_asset_at_root : Element := leaf "asset" ∅.

(** A document with an asset that has no proxy. *)
Definition asset_without_proxy : Element :=
  Elem "ges" ∅ None None [leaf "asset" {[ "id" := clip_uri ]}].

(** The decomposition of a [file] URI without host, query or fragment. *)
Definition file_parts (p : string) : SplitResult :=
  {| scheme := "file"; netloc := ""; path := p; query := ""; fragment := "" |}.

(** For the samples, checks of the network location that let every host
    pass; no sample URI that is split names a host with brackets or with
    characters outside ASCII, so neither check is consulted on them. *)
Definition any_host : string → bool := λ _, false.
Definition as_written : string → string := λ s, s.

(** For the samples, a serialiser that comes to its end and whose output
    reads back as the tree it was given: the sample documents are a few
    levels deep and hold no carriage return. *)
Definition read_back : Element → data := Doc.
Definition within_stack : Element → bool := λ _, false.

(** ** The notions the properties are stated with *)

(** The attributes [update_paths] may write on an element with tag [t]. *)
Definition rewritable (t key : string) : bool :=
  bool_decide (t = "asset") && (bool_decide (key = "id") || bool_decide (key = "proxy-id"))
  || bool_decide (t = "clip") && bool_decide (key = "asset-id").

(** An element without the attributes [update_paths] may write, and so for
    its descendants: two trees with the same [outside] differ at most there. *)
Fixpoint outside (e : Element) : Element :=
  let 'Elem t a x y cs := e in
  Elem t (filter (λ kv, rewritable t kv.1 = false) a) x y (outside <$> cs).

(** The attributes of the element a reference names. *)
Definition attrib_at (r : ref) (t : Element) : option (gmap string string) :=
  attrib <$> lookup_at r t.

(** The attributes an asset with attributes [a] is to end with, in the words
    of the specification: [id] rewritten, and [proxy-id] rewritten when it is
    there and not empty, each by [update_uri] on its own. *)
Definition asset_attrib_spec (m : gmap string node) (old_path new_path : string)
    (a : gmap string string) : option (gmap string string) :=
  id ← a !! "id";
  match update_uri_result m old_path new_path id with
  | Raise _ => None
  | Ok id' =>
      match a !! "proxy-id" with
      | Some proxy =>
          if bool_decide (proxy ≠ "") then
            match update_uri_result m old_path new_path proxy with
            | Raise _ => None
            | Ok proxy' => Some (<["proxy-id" := proxy']> (<["id" := id']> a))
            end
          else Some (<["id" := id']> a)
      | None => Some (<["id" := id']> a)
      end
  end.

(** The same for a clip: [asset-id] rewritten. *)
Definition clip_attrib_spec (m : gmap string node) (old_path new_path : string)
    (a : gmap string string) : option (gmap string string) :=
  asset_id ← a !! "asset-id";
  match update_uri_result m old_path new_path asset_id with
  | Raise _ => None
  | Ok asset_id' => Some (<["asset-id" := asset_id']> a)
  end.

(** What a turn of either loop on the reference [r] may change: the world
    keeps its files and journal, every other element keeps its attributes,
    and when [r] names an element with tag [tg] the tree keeps its
    [outside]. *)
Definition local_to (r : ref) (tg : string) (s s' : doc_state) : Prop :=
  fs s'.2 = fs s.2 ∧ journal s'.2 = journal s.2
  ∧ (∀ r0, r0 ≠ r → attrib_at r0 s'.1 = attrib_at r0 s.1)
  ∧ ((∀ e, lookup_at r s.1 = Some e → tag e = tg) → outside s'.1 = outside s.1).

(** The steps of [main] on the file at [p]. *)
Definition steps_of_file (p : string) : list step :=
  [Parse p; Backup p; Rewrite p; Persist p].

(** The order of the steps on the files found, as [main] is written. *)
Definition steps_of_main (args : arguments) (xges_files : list string) : list step :=
  xges_files ≫= λ f, steps_of_file (os_path_join (xges_path args) f).

(** The same as the specification draws the control flow: the backup
    before the parse. *)
Definition steps_of_spec (args : arguments) (xges_files : list string) : list step :=
  xges_files ≫= λ f,
    let p := os_path_join (xges_path args) f in [Backup p; Parse p; Rewrite p; Persist p].

(** The world once [file_exists] has printed its warning about [path]. *)
Definition warned (path : string) (w : world) : world :=
  {| fs := fs w;
     stdout := stdout w ++ ["Warning: " +:+ path +:+ " does not exist; skipping."];
     journal := journal w |}.

(** The two lines [backup_file] prints. *)
Definition skip_line (p : string) : string :=
  "Skipping backup of " +:+ p +:+ " because " +:+ (p +:+ ".original")
  +:+ " already exists.".

Definition move_line (p : string) : string :=
  "Moving " +:+ dquote +:+ p +:+ dquote +:+ newline
  +:+ "    to " +:+ dquote +:+ (p +:+ ".original") +:+ dquote.

(** The line [file_exists] prints about [path]. *)
Definition warning_line (path : string) : string :=
  "Warning: " +:+ path +:+ " does not exist; skipping.".

(** Lines that are all warnings about paths the file system [m] lacks. *)
Definition only_warnings (m : gmap string node) (out : list string) : Prop :=
  Forall (λ line, ∃ p, m !! p = None ∧ line = warning_line p) out.

(** A world that differs from [w] by such warnings printed, and by nothing
    else. *)
Definition printed_only (w w' : world) : Prop :=
  fs w' = fs w ∧ journal w' = journal w
  ∧ ∃ out, stdout w' = stdout w ++ out ∧ only_warnings (fs w) out.

(** A URI [urlsplit] takes apart without raising. *)
Definition accepted (uri : string) : Prop := ∃ parts, urlsplit uri = Ok parts.

(** A document [update_paths] can work through: below the root every asset
    has an [id], every clip an [asset-id], and [urlsplit] accepts each of
    them and each [proxy-id] that is not empty. *)
Definition rewritable_document (t : Element) : Prop :=
  ∀ r e, r ≠ [] → lookup_at r t = Some e →
    (tag e = "asset" →
       (∃ id, attrib e !! "id" = Some id ∧ accepted id)
       ∧ ∀ proxy, attrib e !! "proxy-id" = Some proxy → proxy ≠ "" → accepted proxy)
    ∧ (tag e = "clip" →
       ∃ asset_id, attrib e !! "asset-id" = Some asset_id ∧ accepted asset_id).

(** The characters [urlsplit] removes or takes for the start of the query
    or of the fragment: tab, line feed, carriage return, [#] and [?]. *)
Definition split_chars : string := String "009" (String "010" (String "013" "#?")).

(** An absolute path a [file] URI can carry as it is: it starts with one
    [/] and holds none of [split_chars]. *)
Definition plain_path (p : string) : bool :=
  PyStr.startswith "/" p && negb (PyStr.startswith "//" p)
  && PyStr.forallb (λ c, negb (PyStr.char_in c split_chars)) p.

(** A URI [urlsplit] accepts and whose scheme is not [file]. *)
Definition remote (uri : string) : Prop :=
  ∃ parts, urlsplit uri = Ok parts ∧ scheme parts ≠ "file".

(** A document whose assets and clips below the root all refer to remote
    media. *)
Definition remote_document (t : Element) : Prop :=
  ∀ r e, r ≠ [] → lookup_at r t = Some e →
    (tag e = "asset" →
       (∃ id, attrib e !! "id" = Some id ∧ remote id)
       ∧ ∀ proxy, attrib e !! "proxy-id" = Some proxy → proxy ≠ "" → remote proxy)
    ∧ (tag e = "clip" →
       ∃ asset_id, attrib e !! "asset-id" = Some asset_id ∧ remote asset_id).

(** A project whose media are remote: an asset, with an empty [proxy-id],
    and a clip that refers to it. *)
Definition remote_project : Element :=
  Elem "ges" ∅ None None
    [leaf "asset" {[ "id" := "http://example.com/media/old/clip1.mp4";
                     "proxy-id" := "" ]};
     leaf "clip" {[ "asset-id" := "http://example.com/media/old/clip1.mp4" ]}].

(** The line [main] prints between the backup and the rewriting of the
    file at [p], and the line it prints once the file is written. *)
Definition changing_line (args : arguments) (p : string) : string :=
  "Changing " +:+ dquote +:+ old_path args +:+ dquote +:+ newline
  +:+ "      to " +:+ dquote +:+ new_path args +:+ dquote +:+ newline
  +:+ "      in " +:+ dquote +:+ p +:+ dquote.

Definition done_line : string := "Done" +:+ newline.

(** The files [m] with a backup of the regular file at [p], which holds
    [c]: a backup that is there stays, otherwise the backup holds [c]. *)
Definition backed_up (m : gmap string node) (p : string) (c : data)
  : gmap string node :=
  match m !! (p +:+ ".original") with
  | Some _ => m
  | None => <[p +:+ ".original" := File c]> m
  end.

(** The line [backup_file] prints for [p] over the files [m]. *)
Definition backup_line (m : gmap string node) (p : string) : string :=
  match m !! (p +:+ ".original") with
  | Some _ => skip_line p
  | None => move_line p
  end.

(** The world [w] of the beginning of a turn, once the file at [p] has been
    read as [root], its backup made, and the lines of the backup and of the
    change to come printed, in this order. *)
Definition backed_up_world (args : arguments) (p : string) (root : Element)
    (w : world) : world :=
  {| fs := backed_up (fs w) p (Doc root);
     stdout := stdout w ++ [backup_line (fs w) p; changing_line args p];
     journal := journal w ++ [Parse p; Backup p; Rewrite p] |}.

(** The exceptions the content of a project file gives rise to: the file
    is not well-formed, an asset or a clip lacks its attribute, a URI does
    not split. *)
Definition of_the_document (e : exn) : Prop :=
  match e with
  | ParseError _ | KeyError _ | ValueError => True
  | _ => False
  end.

(** ** Strings *)

Lemma app_cons c s t : String c s +:+ t = String c (s +:+ t).
Proof. reflexivity. Qed.

Lemma app_empty_l s : "" +:+ s = s.
Proof. reflexivity. Qed.

Lemma length_app s t : String.length (s +:+ t) = String.length s + String.length t.
Proof. induction s as [|c s IH]; [done|]. rewrite app_cons. simpl. by rewrite IH. Qed.

Lemma startswith_app old post : PyStr.startswith old (old +:+ post) = true.
Proof.
  induction old as [|c old IH]; [done|].
  rewrite app_cons. simpl. rewrite IH. by rewrite bool_decide_eq_true_2.
Qed.

Lemma drop_app_length old post : PyStr.drop (String.length old) (old +:+ post) = post.
Proof. induction old as [|c old IH]; [done|]. rewrite app_cons. simpl. apply IH. Qed.

Lemma replace1_unfold old new s :
  PyStr.replace1 old new s =
    if PyStr.startswith old s then new +:+ PyStr.drop (String.length old) s
    else match s with
         | "" => ""
         | String c s' => String c (PyStr.replace1 old new s')
         end.
Proof. by destruct s. Qed.

Lemma contains_unfold old s :
  PyStr.contains old s =
    PyStr.startswith old s
    || match s with "" => false | String _ s' => PyStr.contains old s' end.
Proof. by destruct s. Qed.

(** The leftmost occurrence is the one replaced, and the text after it is
    kept as it is. *)
Lemma replace1_leftmost old new pre post :
  (∀ m, m < String.length pre →
        PyStr.startswith old (PyStr.drop m (pre +:+ old +:+ post)) = false) →
  PyStr.replace1 old new (pre +:+ old +:+ post) = pre +:+ new +:+ post.
Proof.
  induction pre as [|c pre IH]; intros Hfirst.
  - rewrite !app_empty_l, replace1_unfold, startswith_app.
    by rewrite drop_app_length.
  - rewrite replace1_unfold.
    pose proof (Hfirst 0 ltac:(simpl; lia)) as H0.
    cbn [PyStr.drop] in H0. rewrite H0, !app_cons. f_equal. apply IH.
    intros m Hm. apply (Hfirst (S m)). simpl. lia.
Qed.

(** Without an occurrence the replacement changes nothing. *)
Lemma replace1_absent old new s :
  PyStr.contains old s = false → PyStr.replace1 old new s = s.
Proof.
  induction s as [|c s IH]; intros H; rewrite contains_unfold in H;
    apply orb_false_iff in H as [Hs Hc]; rewrite replace1_unfold, Hs; [done|].
  f_equal. by apply IH.
Qed.

Lemma backup_path_fresh p : p +:+ ".original" ≠ p.
Proof.
  intros H. apply (f_equal String.length) in H.
  rewrite length_app in H. simpl in H. lia.
Qed.

(** ** [update_uri] *)

Lemma file_exists_found p w :
  is_Some (fs w !! p) → file_exists p w = (Ok true, w).
Proof.
  intros H. unfold file_exists, bind, os_path_exists, gets.
  by rewrite bool_decide_eq_true_2.
Qed.

Lemma file_exists_missing p w :
  fs w !! p = None → file_exists p w = (Ok false, warned p w).
Proof.
  intros H. unfold file_exists, bind, os_path_exists, gets.
  rewrite bool_decide_eq_false_2; [done|]. rewrite H. by intros [? ?].
Qed.

(** [update_uri] on a [file] URI, by whether the substituted path exists. *)
Lemma update_uri_file old new u parts w :
  urlsplit u = Ok parts → scheme parts = "file" →
  let p := PyStr.replace1 old new (Urllib.unquote (path parts)) in
  update_uri old new u w =
    match fs w !! p with
    | Some _ => (Ok (Urllib.urlunsplit (set_path (Urllib.quote p) parts)), w)
    | None => (Ok (Urllib.urlunsplit parts), warned p w)
    end.
Proof.
  intros Hsplit Hscheme p. unfold update_uri. rewrite Hsplit.
  rewrite bool_decide_eq_true_2 by done. unfold bind. cbv zeta. fold p.
  destruct (fs w !! p) as [n|] eqn:Hp.
  - by rewrite file_exists_found by (by rewrite Hp).
  - by rewrite file_exists_missing.
Qed.

(** C2: for a URI whose scheme is not [file], [update_uri] returns the very
    string it was given, whatever the two fragments are: nothing is decoded,
    encoded, looked up or printed. *)
Theorem update_uri_other_scheme old new u parts w :
  urlsplit u = Ok parts → scheme parts ≠ "file" →
  update_uri old new u w = (Ok u, w).
Proof.
  intros Hsplit Hscheme. unfold update_uri. rewrite Hsplit.
  by rewrite bool_decide_eq_false_2.
Qed.

(** C1, amended: for a [file] URI whose substituted path does not exist,
    [update_uri] prints the warning that names the path and returns
    [urlunsplit] of the components [urlsplit] found, none of them changed:
    the substitution is dropped and the path keeps its percent-encoding.
    This is the input written the way [urlunsplit] writes a URI. *)
Theorem update_uri_missing_path old new u parts w :
  urlsplit u = Ok parts → scheme parts = "file" →
  fs w !! PyStr.replace1 old new (Urllib.unquote (path parts)) = None →
  update_uri old new u w =
    (Ok (Urllib.urlunsplit parts),
     warned (PyStr.replace1 old new (Urllib.unquote (path parts))) w).
Proof.
  intros Hsplit Hscheme Hmissing.
  rewrite (update_uri_file old new u parts w Hsplit Hscheme). cbv zeta.
  by rewrite Hmissing.
Qed.

(** C3: when the decoded path of a [file] URI reads [pre ++ old ++ post]
    and [old] starts nowhere before the end of [pre], the path [update_uri]
    checks and writes back is [pre ++ new ++ post]: the leftmost occurrence,
    matched character for character, is the one replaced, and [post], with
    every later occurrence of [old] in it, is kept. *)
Theorem update_uri_replaces_leftmost old new u parts pre post w :
  urlsplit u = Ok parts → scheme parts = "file" →
  Urllib.unquote (path parts) = pre +:+ old +:+ post →
  (∀ m, m < String.length pre →
        PyStr.startswith old (PyStr.drop m (pre +:+ old +:+ post)) = false) →
  PyStr.replace1 old new (Urllib.unquote (path parts)) = pre +:+ new +:+ post
  ∧ update_uri old new u w =
      match fs w !! (pre +:+ new +:+ post) with
      | Some _ =>
          (Ok (Urllib.urlunsplit
                 (set_path (Urllib.quote (pre +:+ new +:+ post)) parts)), w)
      | None => (Ok (Urllib.urlunsplit parts), warned (pre +:+ new +:+ post) w)
      end.
Proof.
  intros Hsplit Hscheme Hpath Hfirst.
  assert (PyStr.replace1 old new (Urllib.unquote (path parts))
          = pre +:+ new +:+ post) as Hreplaced.
  { rewrite Hpath. by apply replace1_leftmost. }
  split; [done|].
  rewrite (update_uri_file old new u parts w Hsplit Hscheme). cbv zeta.
  by rewrite Hreplaced.
Qed.

(** C8: when [old] does not occur in the decoded path of a [file] URI and
    that path exists, [update_uri] still rebuilds the URI, its path being
    [quote(unquote(path))]; the second part exhibits a URI that comes back
    with another percent-encoding though no character of its path changed. *)
Theorem update_uri_reencodes :
  (∀ old new u parts w,
     urlsplit u = Ok parts → scheme parts = "file" →
     PyStr.contains old (Urllib.unquote (path parts)) = false →
     is_Some (fs w !! Urllib.unquote (path parts)) →
     update_uri old new u w =
       (Ok (Urllib.urlunsplit
              (set_path (Urllib.quote (Urllib.unquote (path parts))) parts)), w))
  ∧ (∃ old new u u' w,
       update_uri old new u w = (Ok u', w) ∧ u' ≠ u
       ∧ ∃ parts, urlsplit u = Ok parts ∧ scheme parts = "file"
           ∧ PyStr.contains old (Urllib.unquote (path parts)) = false
           ∧ PyStr.replace1 old new (Urllib.unquote (path parts))
             = Urllib.unquote (path parts)
           ∧ is_Some (fs w !! Urllib.unquote (path parts))).
Proof.
  split.
  - intros old new u parts w Hsplit Hscheme Habsent [n Hn].
    rewrite (update_uri_file old new u parts w Hsplit Hscheme). cbv zeta.
    rewrite (replace1_absent _ _ _ Habsent). by rewrite Hn.
  - exists "old", "new", "file:///media/take%7E1.mp4", "file:///media/take~1.mp4",
      (world_of {[ "/media/take~1.mp4" := File (Raw "video") ]}).
    split; [by vm_compute|]. split; [done|].
    eexists. split; [by vm_compute|].
    repeat split; [by vm_compute..|]. vm_compute. eauto.
Qed.

(** ** [backup_file] *)

Lemma backup_file_skips p w :
  is_Some (fs w !! (p +:+ ".original")) →
  backup_file p w =
    (Ok tt, {| fs := fs w; stdout := stdout w ++ [skip_line p]; journal := journal w |}).
Proof.
  intros H. unfold backup_file, bind, os_path_exists, gets.
  by rewrite bool_decide_eq_true_2.
Qed.

Lemma backup_file_moves p w c :
  fs w !! (p +:+ ".original") = None → fs w !! p = Some (File c) →
  backup_file p w =
    (Ok tt, {| fs := <[p +:+ ".original" := File c]> (fs w);
               stdout := stdout w ++ [move_line p]; journal := journal w |}).
Proof.
  intros Hfresh Hfile. unfold backup_file, bind, os_path_exists, gets.
  rewrite bool_decide_eq_false_2 by (rewrite Hfresh; by intros [? ?]).
  unfold print, modify, shutil_move, shutil_copy2, bind, gets, modify, set_fs. simpl.
  rewrite Hfile. simpl. rewrite lookup_insert_eq. do 2 f_equal. cbn [fs].
  rewrite insert_insert_ne by (intros E; by apply (backup_path_fresh p)).
  by rewrite insert_delete_eq, (insert_id _ _ _ Hfile).
Qed.

Lemma backup_file_needs_file p w w' :
  fs w !! (p +:+ ".original") = None → backup_file p w = (Ok tt, w') →
  ∃ c, fs w !! p = Some (File c).
Proof.
  intros Hfresh. unfold backup_file, bind, os_path_exists, gets.
  rewrite bool_decide_eq_false_2 by (rewrite Hfresh; by intros [? ?]).
  unfold print, modify, shutil_move, shutil_copy2, bind, gets, modify, set_fs, raise.
  simpl. destruct (fs w !! p) as [[c|]|]; simpl; [by eauto| |done].
  by rewrite lookup_insert_eq.
Qed.

(** C7: when no backup exists yet and [backup_file] returns, the original
    path and the backup path both name a regular file, with the content the
    original had; and it does return whenever the original is a regular
    file. *)
Theorem backup_file_creates_backup p w :
  fs w !! (p +:+ ".original") = None →
  (∀ w', backup_file p w = (Ok tt, w') →
         ∃ c, fs w !! p = Some (File c)
              ∧ fs w' !! p = Some (File c)
              ∧ fs w' !! (p +:+ ".original") = Some (File c))
  ∧ (∀ c, fs w !! p = Some (File c) → ∃ w', backup_file p w = (Ok tt, w')).
Proof.
  intros Hfresh. split.
  - intros w' Hrun.
    destruct (backup_file_needs_file p w w' Hfresh Hrun) as [c Hfile].
    rewrite (backup_file_moves p w c Hfresh Hfile) in Hrun.
    injection Hrun as <-. exists c. simpl. split; [done|].
    rewrite lookup_insert_eq, lookup_insert_ne by apply backup_path_fresh.
    done.
  - intros c Hfile. eexists. by apply backup_file_moves.
Qed.

(** C4: [backup_file] is idempotent.  When the backup path exists the call
    leaves the file system as it is and prints the skip line only.  So,
    starting without a backup, the first call adds one file, the backup,
    holding the content of the original, and a second call changes no file:
    the backup is neither duplicated nor overwritten. *)
Theorem backup_file_idempotent p :
  (∀ w, is_Some (fs w !! (p +:+ ".original")) →
        backup_file p w =
          (Ok tt, {| fs := fs w; stdout := stdout w ++ [skip_line p];
                     journal := journal w |}))
  ∧ (∀ w w1,
       fs w !! (p +:+ ".original") = None → backup_file p w = (Ok tt, w1) →
       ∃ c, fs w !! p = Some (File c)
            ∧ fs w1 = <[p +:+ ".original" := File c]> (fs w)
            ∧ fs w1 !! p = Some (File c)
            ∧ backup_file p w1 =
                (Ok tt, {| fs := fs w1; stdout := stdout w1 ++ [skip_line p];
                           journal := journal w1 |})).
Proof.
  split; [apply backup_file_skips|].
  intros w w1 Hfresh Hrun.
  destruct (backup_file_needs_file p w w1 Hfresh Hrun) as [c Hfile].
  rewrite (backup_file_moves p w c Hfresh Hfile) in Hrun.
  injection Hrun as <-. exists c. split; [done|]. split; [done|]. split.
  - cbn [fs]. by rewrite lookup_insert_ne by apply backup_path_fresh.
  - apply backup_file_skips. cbn [fs]. rewrite lookup_insert_eq. by eexists.
Qed.

(** ** Element trees *)

Lemma Element_ind' (P : Element → Prop) :
  (∀ t a x y cs, Forall P cs → P (Elem t a x y cs)) → ∀ e, P e.
Proof.
  intros step. fix IH 1. intros [t a x y cs]. apply step.
  induction cs as [|c cs IHcs]; constructor; [apply IH | apply IHcs].
Qed.

Lemma iter_unfold t t' a x y cs :
  iter t (Elem t' a x y cs) =
    (if bool_decide (t' = t) then [[]] else []) ++ iter_below (iter t) 0 cs.
Proof. reflexivity. Qed.

Lemma elem_of_iter_below found cs : ∀ i r,
  r ∈ iter_below found i cs ↔
  ∃ j r' c, r = (i + j) :: r' ∧ cs !! j = Some c ∧ r' ∈ found c.
Proof.
  induction cs as [|c cs IH]; intros i r; simpl.
  - split; [by intros ?%elem_of_nil | by intros (j & r' & c & _ & ? & _)].
  - rewrite elem_of_app, list_elem_of_fmap, IH. split.
    + intros [(r' & -> & Hr') | (j & r' & c' & -> & Hj & Hr')].
      * exists 0, r', c. by rewrite Nat.add_0_r.
      * exists (S j), r', c'. split; [f_equal; lia | done].
    + intros ([|j] & r' & c' & -> & Hj & Hr'); simpl in Hj.
      * left. injection Hj as <-. exists r'. by rewrite Nat.add_0_r.
      * right. exists j, r', c'. split; [f_equal; lia | done].
Qed.

(** [iter] yields the references of the elements that carry the tag. *)
Lemma elem_of_iter t e : ∀ r,
  r ∈ iter t e ↔ ∃ x, lookup_at r e = Some x ∧ tag x = t.
Proof.
  induction e as [t' a x y cs IH] using Element_ind'. intros r.
  rewrite iter_unfold, elem_of_app, elem_of_iter_below. split.
  - intros [Hroot | (j & r' & c & -> & Hj & Hr')].
    + case_bool_decide as Ht; [|by apply elem_of_nil in Hroot].
      apply list_elem_of_singleton in Hroot as ->. by eexists.
    + rewrite Forall_lookup in IH. apply (IH j c Hj) in Hr' as (e' & He' & Htag).
      exists e'. simpl. by rewrite Hj.
  - intros (e' & He' & Htag). destruct r as [|j r'].
    + left. injection He' as <-. simpl in Htag.
      rewrite bool_decide_eq_true_2 by done. by apply list_elem_of_singleton.
    + right. simpl in He'. destruct (cs !! j) as [c|] eqn:Hj; [|done].
      exists j, r', c. split; [done|]. split; [done|].
      rewrite Forall_lookup in IH. apply (IH j c Hj). by exists e'.
Qed.

Lemma elem_of_findall t e r :
  r ∈ findall t e ↔ r ≠ [] ∧ ∃ x, lookup_at r e = Some x ∧ tag x = t.
Proof. unfold findall. by rewrite list_elem_of_filter, elem_of_iter. Qed.

Lemma NoDup_iter_below found cs :
  Forall (λ c, NoDup (found c)) cs → ∀ i, NoDup (iter_below found i cs).
Proof.
  induction 1 as [|c cs Hc _ IH]; intros i; simpl; [constructor|].
  apply NoDup_app. split; [|split; [|apply IH]].
  - apply (NoDup_fmap_2 _). exact Hc.
  - intros r (r' & -> & _)%list_elem_of_fmap (j & r'' & c' & Heq & _)%elem_of_iter_below.
    injection Heq as Heq _. lia.
Qed.

Lemma NoDup_iter t e : NoDup (iter t e).
Proof.
  induction e as [t' a x y cs IH] using Element_ind'.
  rewrite iter_unfold. apply NoDup_app. split; [|split].
  - case_bool_decide; [apply NoDup_singleton | constructor].
  - intros r Hr (j & r' & c & -> & _)%elem_of_iter_below.
    case_bool_decide; [|by apply elem_of_nil in Hr].
    by apply list_elem_of_singleton in Hr.
  - by apply NoDup_iter_below.
Qed.

Lemma NoDup_findall t e : NoDup (findall t e).
Proof. apply NoDup_filter, NoDup_iter. Qed.

Lemma iter_below_outside found cs :
  Forall (λ c, found (outside c) = found c) cs →
  ∀ i, iter_below found i (outside <$> cs) = iter_below found i cs.
Proof.
  induction 1 as [|c cs Hc _ IH]; intros i; simpl; [done|]. by rewrite Hc, IH.
Qed.

(** [iter], and so [findall], look at tags and shape only. *)
Lemma iter_outside t e : iter t (outside e) = iter t e.
Proof.
  induction e as [t' a x y cs IH] using Element_ind'.
  simpl outside. rewrite !iter_unfold. by rewrite iter_below_outside.
Qed.

Lemma findall_outside t e e' : outside e = outside e' → findall t e = findall t e'.
Proof.
  intros H. unfold findall. by rewrite <-(iter_outside t e), H, iter_outside.
Qed.

Lemma lookup_at_outside r : ∀ e, lookup_at r (outside e) = outside <$> lookup_at r e.
Proof.
  induction r as [|i r IH]; intros [t a x y cs]; [done|].
  simpl. rewrite list_lookup_fmap. destruct (cs !! i) as [c|]; simpl; [apply IH | done].
Qed.

Lemma tag_outside e : tag (outside e) = tag e.
Proof. by destruct e. Qed.

(** Trees with the same [outside] carry the same tags at the same places. *)
Lemma outside_tag_at r e e' x :
  outside e = outside e' → lookup_at r e = Some x →
  ∃ x', lookup_at r e' = Some x' ∧ tag x' = tag x.
Proof.
  intros Hout Hx.
  pose proof (lookup_at_outside r e) as H1. pose proof (lookup_at_outside r e') as H2.
  rewrite Hout, H2, Hx in H1. destruct (lookup_at r e') as [x'|]; [|done].
  exists x'. split; [done|]. injection H1 as H1.
  by rewrite <-(tag_outside x'), H1, tag_outside.
Qed.

(** Writing an attribute at [r'] changes the attributes at [r'] only. *)
Lemma attrib_at_modify key value r' : ∀ r t,
  attrib_at r (modify_at (set_attrib key value) r' t) =
    if decide (r = r') then <[key := value]> <$> attrib_at r t else attrib_at r t.
Proof.
  unfold attrib_at.
  induction r' as [|j r' IH]; intros r [t a x y cs].
  - destruct r as [|i r]; [by rewrite decide_True|]. by rewrite decide_False.
  - destruct r as [|i r]; [by rewrite decide_False|]. simpl.
    destruct (decide (i = j)) as [->|Hij].
    + rewrite list_lookup_alter_eq. destruct (cs !! j) as [c|]; simpl.
      * rewrite IH. destruct (decide (r = r')) as [->|Hr].
        -- by rewrite !decide_True by done.
        -- by rewrite !decide_False by congruence.
      * by case_match.
    + rewrite list_lookup_alter_ne by done. rewrite decide_False; [done | congruence].
Qed.

(** Writing a rewritable attribute leaves the [outside] of the tree alone. *)
Lemma outside_modify key value r : ∀ t e,
  lookup_at r t = Some e → rewritable (tag e) key = true →
  outside (modify_at (set_attrib key value) r t) = outside t.
Proof.
  induction r as [|i r IH]; intros [t a x y cs] e He Hkey.
  - injection He as <-. simpl in *. f_equal.
    apply map_filter_insert_not. intros v. simpl. by rewrite Hkey.
  - simpl in *. f_equal. destruct (cs !! i) as [c|] eqn:Hc; [|done]. simpl in He.
    apply list_eq. intros j. rewrite !list_lookup_fmap.
    destruct (decide (i = j)) as [<-|Hij].
    + rewrite list_lookup_alter_eq, Hc. simpl. f_equal. by apply (IH c e).
    + by rewrite list_lookup_alter_ne.
Qed.

(** A reference that names nothing is written to without effect. *)
Lemma modify_at_dangling f r : ∀ t, lookup_at r t = None → modify_at f r t = t.
Proof.
  induction r as [|i r IH]; intros [t a x y cs] H; [done|]. simpl in *. f_equal.
  apply list_eq. intros j. destruct (decide (i = j)) as [<-|Hij].
  - rewrite list_lookup_alter_eq. destruct (cs !! i) as [c|]; [|done]. simpl in *.
    by rewrite IH.
  - by rewrite list_lookup_alter_ne.
Qed.

(** ** The loops of [update_paths] *)

Lemma urlsplit_raises u e : urlsplit u = Raise e → e = ValueError.
Proof. unfold urlsplit. intros H. repeat case_match; congruence. Qed.

(** [update_uri] reads the file system and prints; its value depends on the
    file system only, and [ValueError] is all it raises. *)
Lemma update_uri_outcome old new u w :
  (update_uri old new u w).1 = update_uri_result (fs w) old new u.
Proof.
  unfold update_uri_result, update_uri. destruct (urlsplit u) as [parts|e]; [|done].
  case_bool_decide; [|done].
  unfold bind, file_exists, bind, os_path_exists, gets, print, modify, ret. simpl.
  by case_bool_decide.
Qed.

Lemma update_uri_world old new u w :
  fs (update_uri old new u w).2 = fs w
  ∧ journal (update_uri old new u w).2 = journal w.
Proof.
  unfold update_uri. destruct (urlsplit u) as [parts|e]; [|done].
  case_bool_decide; [|done].
  unfold bind, file_exists, bind, os_path_exists, gets, print, modify, ret. simpl.
  by case_bool_decide.
Qed.

Lemma update_uri_raises old new u w e :
  (update_uri old new u w).1 = Raise e → e = ValueError.
Proof.
  unfold update_uri. destruct (urlsplit u) as [parts|e'] eqn:Hsplit.
  - case_bool_decide; [|done].
    unfold bind, file_exists, bind, os_path_exists, gets, print, modify, ret. simpl.
    by case_bool_decide.
  - simpl. intros [= <-]. by apply (urlsplit_raises u).
Qed.

Lemma lookup_attrib_at r t key :
  lookup_at r t ≫= (λ e, attrib e !! key) = attrib_at r t ≫= (.!! key).
Proof. unfold attrib_at. by destruct (lookup_at r t). Qed.

Lemma proxy_after_id r t id' :
  lookup_at r (modify_at (set_attrib "id" id') r t) ≫= (λ e, attrib e !! "proxy-id")
  = attrib_at r t ≫= (.!! "proxy-id").
Proof.
  rewrite lookup_attrib_at, attrib_at_modify, decide_True by done.
  destruct (attrib_at r t) as [a|]; [|done]. simpl. by rewrite lookup_insert_ne.
Qed.

(** One turn of the loop over the assets, step by step. *)
Lemma update_asset_run old new r t w :
  update_asset old new r (t, w) =
    match attrib_at r t ≫= (.!! "id") with
    | None => (Raise (KeyError "id"), (t, w))
    | Some id =>
        match update_uri old new id w with
        | (Raise e, w1) => (Raise e, (t, w1))
        | (Ok id', w1) =>
            let t1 := modify_at (set_attrib "id" id') r t in
            match attrib_at r t ≫= (.!! "proxy-id") with
            | Some proxy =>
                if bool_decide (proxy ≠ "") then
                  match update_uri old new proxy w1 with
                  | (Raise e, w2) => (Raise e, (t1, w2))
                  | (Ok proxy', w2) =>
                      (Ok tt, (modify_at (set_attrib "proxy-id" proxy') r t1, w2))
                  end
                else (Ok tt, (t1, w1))
            | None => (Ok tt, (t1, w1))
            end
        end
    end.
Proof.
  unfold update_asset, bind, attrib_getitem, in_world, attrib_setitem, Element_get,
    modify, gets, ret.
  rewrite !lookup_attrib_at.
  destruct (attrib_at r t ≫= (.!! "id")) as [id|] eqn:Hid; [|done].
  destruct (update_uri old new id w) as [[id'|e] w1]; [|done]. cbv zeta.
  rewrite !proxy_after_id.
  destruct (attrib_at r t ≫= (.!! "proxy-id")) as [proxy|] eqn:Hproxy; [|done]. simpl.
  case_bool_decide; [|done]. rewrite proxy_after_id, Hproxy.
  by destruct (update_uri old new proxy w1) as [[proxy'|e] w2].
Qed.

Lemma update_clip_run old new r t w :
  update_clip old new r (t, w) =
    match attrib_at r t ≫= (.!! "asset-id") with
    | None => (Raise (KeyError "asset-id"), (t, w))
    | Some asset_id =>
        match update_uri old new asset_id w with
        | (Raise e, w1) => (Raise e, (t, w1))
        | (Ok asset_id', w1) =>
            (Ok tt, (modify_at (set_attrib "asset-id" asset_id') r t, w1))
        end
    end.
Proof.
  unfold update_clip, bind, attrib_getitem, in_world, attrib_setitem, modify.
  rewrite !lookup_attrib_at.
  destruct (attrib_at r t ≫= (.!! "asset-id")) as [asset_id|]; [|done].
  by destruct (update_uri old new asset_id w) as [[asset_id'|e] w1].
Qed.

Lemma outside_modify' key value r t :
  (∀ e, lookup_at r t = Some e → rewritable (tag e) key = true) →
  outside (modify_at (set_attrib key value) r t) = outside t.
Proof.
  intros H. destruct (lookup_at r t) as [e|] eqn:He.
  - by apply (outside_modify _ _ _ _ e), H.
  - by rewrite modify_at_dangling.
Qed.

Lemma update_asset_local old new r s :
  local_to r "asset" s (update_asset old new r s).2.
Proof.
  destruct s as [t w]. rewrite update_asset_run. unfold local_to.
  destruct (attrib_at r t ≫= (.!! "id")) as [id|]; [|done].
  pose proof (update_uri_world old new id w) as [Hfs1 Hj1].
  destruct (update_uri old new id w) as [[id'|e] w1]; [|done]. cbv zeta.
  assert (∀ r0, r0 ≠ r →
    attrib_at r0 (modify_at (set_attrib "id" id') r t) = attrib_at r0 t) as Hid.
  { intros r0 Hr0. by rewrite attrib_at_modify, decide_False. }
  assert ((∀ e, lookup_at r t = Some e → tag e = "asset") →
    outside (modify_at (set_attrib "id" id') r t) = outside t) as Hout1.
  { intros Htag. apply outside_modify'. intros e He. by rewrite (Htag e He). }
  destruct (attrib_at r t ≫= (.!! "proxy-id")) as [proxy|]; [|done].
  case_bool_decide; [|done].
  pose proof (update_uri_world old new proxy w1) as [Hfs2 Hj2].
  destruct (update_uri old new proxy w1) as [[proxy'|e] w2]; simpl in *;
    (split; [congruence|]); (split; [congruence|]); [|done].
  split.
  - intros r0 Hr0. by rewrite attrib_at_modify, decide_False, Hid.
  - intros Htag. rewrite <-(Hout1 Htag). apply outside_modify'. intros e He.
    apply (outside_tag_at r _ t) in He as (e' & He' & <-); [|by apply Hout1].
    by rewrite (Htag e' He').
Qed.

Lemma update_clip_local old new r s :
  local_to r "clip" s (update_clip old new r s).2.
Proof.
  destruct s as [t w]. rewrite update_clip_run. unfold local_to.
  destruct (attrib_at r t ≫= (.!! "asset-id")) as [asset_id|]; [|done].
  pose proof (update_uri_world old new asset_id w) as [Hfs1 Hj1].
  destruct (update_uri old new asset_id w) as [[asset_id'|e] w1]; [|done]. simpl in *.
  split; [done|]. split; [done|]. split.
  - intros r0 Hr0. by rewrite attrib_at_modify, decide_False.
  - intros Htag. apply outside_modify'. intros e He. by rewrite (Htag e He).
Qed.

(** A turn that returns leaves the element with the attributes the
    specification gives it. *)
Lemma update_asset_returns old new r t w t' w' a :
  update_asset old new r (t, w) = (Ok tt, (t', w')) → attrib_at r t = Some a →
  attrib_at r t' = asset_attrib_spec (fs w) old new a
  ∧ is_Some (asset_attrib_spec (fs w) old new a).
Proof.
  rewrite update_asset_run. intros Hrun Ha. rewrite Ha in Hrun. simpl in Hrun.
  unfold asset_attrib_spec.
  destruct (a !! "id") as [id|]; [|done]. simpl.
  rewrite <-update_uri_outcome.
  pose proof (update_uri_world old new id w) as [Hfs1 _].
  destruct (update_uri old new id w) as [[id'|e] w1]; [|done]. simpl in *.
  destruct (a !! "proxy-id") as [proxy|].
  - case_bool_decide.
    + rewrite <-Hfs1, <-update_uri_outcome.
      destruct (update_uri old new proxy w1) as [[proxy'|e] w2]; [|done].
      injection Hrun as <- <-. simpl.
      rewrite !attrib_at_modify, !decide_True, Ha by done. by eauto.
    + injection Hrun as <- <-. rewrite attrib_at_modify, decide_True, Ha by done.
      by eauto.
  - injection Hrun as <- <-. rewrite attrib_at_modify, decide_True, Ha by done.
    by eauto.
Qed.

Lemma update_clip_returns old new r t w t' w' a :
  update_clip old new r (t, w) = (Ok tt, (t', w')) → attrib_at r t = Some a →
  attrib_at r t' = clip_attrib_spec (fs w) old new a
  ∧ is_Some (clip_attrib_spec (fs w) old new a).
Proof.
  rewrite update_clip_run. intros Hrun Ha. rewrite Ha in Hrun. simpl in Hrun.
  unfold clip_attrib_spec.
  destruct (a !! "asset-id") as [asset_id|]; [|done]. simpl.
  rewrite <-update_uri_outcome.
  destruct (update_uri old new asset_id w) as [[asset_id'|e] w1]; [|done].
  injection Hrun as <- <-. rewrite attrib_at_modify, decide_True, Ha by done.
  by eauto.
Qed.

(** The exceptions a turn can end with. *)
Lemma update_asset_raises old new r s e :
  (update_asset old new r s).1 = Raise e → e = KeyError "id" ∨ e = ValueError.
Proof.
  destruct s as [t w]. rewrite update_asset_run.
  destruct (attrib_at r t ≫= (.!! "id")) as [id|]; [|by intros [= <-]; left].
  pose proof (update_uri_raises old new id w) as Hid.
  destruct (update_uri old new id w) as [[id'|e1] w1];
    [|by intros [= <-]; right; apply Hid].
  cbv zeta. destruct (attrib_at r t ≫= (.!! "proxy-id")) as [proxy|]; [|done].
  case_bool_decide; [|done].
  pose proof (update_uri_raises old new proxy w1) as Hproxy.
  destruct (update_uri old new proxy w1) as [[proxy'|e2] w2]; [done|].
  intros [= <-]. right. by apply Hproxy.
Qed.

Lemma update_clip_raises old new r s e :
  (update_clip old new r s).1 = Raise e → e = KeyError "asset-id" ∨ e = ValueError.
Proof.
  destruct s as [t w]. rewrite update_clip_run.
  destruct (attrib_at r t ≫= (.!! "asset-id")) as [asset_id|];
    [|by intros [= <-]; left].
  pose proof (update_uri_raises old new asset_id w) as Hid.
  destruct (update_uri old new asset_id w) as [[asset_id'|e1] w1]; [done|].
  intros [= <-]. right. by apply Hid.
Qed.

Section Loops.

Context {S A : Type}.
Implicit Types (xs : list A) (body : A → M S unit) (s : S).

Lemma for_each_cons x xs body s :
  for_each (x :: xs) body s =
    match body x s with
    | (Ok _, s1) => for_each xs body s1
    | (Raise e, s1) => (Raise e, s1)
    end.
Proof. reflexivity. Qed.

(** What every turn keeps, the loop keeps, however it ends. *)
Lemma for_each_invariant (I : S → Prop) xs body :
  (∀ x s, x ∈ xs → I s → I (body x s).2) →
  ∀ s, I s → I (for_each xs body s).2.
Proof.
  induction xs as [|x xs IH]; intros Hbody s Hs; [done|].
  rewrite for_each_cons.
  pose proof (Hbody x s ltac:(left) Hs) as H1.
  destruct (body x s) as [[[]|e] s1]; [|done].
  apply IH; [|done]. intros x' s' Hx'. apply Hbody. by right.
Qed.

(** An exception out of the loop is the exception of one of its turns. *)
Lemma for_each_raises xs body e :
  ∀ s, (for_each xs body s).1 = Raise e →
       ∃ x s0, x ∈ xs ∧ (body x s0).1 = Raise e.
Proof.
  induction xs as [|x xs IH]; intros s; [done|].
  rewrite for_each_cons. destruct (body x s) as [[[]|e'] s1] eqn:Hx.
  - intros (x' & s0 & Hx' & Hs0)%IH. exists x', s0. split; [by right | done].
  - intros [= <-]. exists x, s. split; [left | by rewrite Hx].
Qed.

End Loops.

Section Rewriting.

(** A loop of [update_paths]: its turn [body] on a reference is local to it,
    and a turn that returns gives the element the attributes [spec] tells. *)
Variable body : ref → M doc_state unit.
Variable tg : string.
Variable spec : gmap string node → gmap string string → option (gmap string string).

Hypothesis body_local : ∀ r s, local_to r tg s (body r s).2.
Hypothesis body_returns : ∀ r t w t' w' a,
  body r (t, w) = (Ok tt, (t', w')) → attrib_at r t = Some a →
  attrib_at r t' = spec (fs w) a ∧ is_Some (spec (fs w) a).

(** The loop keeps the files, the journal, and the [outside] of the tree
    when the references name elements with tag [tg]. *)
Lemma loop_frame rs t w :
  (∀ r, r ∈ rs → ∃ e, lookup_at r t = Some e ∧ tag e = tg) →
  let s' := (for_each rs body (t, w)).2 in
  outside s'.1 = outside t ∧ fs s'.2 = fs w ∧ journal s'.2 = journal w.
Proof.
  intros Hrs.
  apply (for_each_invariant
    (λ s, outside s.1 = outside t ∧ fs s.2 = fs w ∧ journal s.2 = journal w));
    [|done].
  intros r s Hr (Hout & Hfs & Hj). cbv beta.
  destruct (body_local r s) as (Hfs' & Hj' & _ & Hout').
  split; [|split; [exact (eq_trans Hfs' Hfs) | exact (eq_trans Hj' Hj)]].
  refine (eq_trans (Hout' _) Hout). intros e He.
  apply (outside_tag_at r _ t) in He as (e' & He' & <-); [|done].
  destruct (Hrs r Hr) as (e0 & He0 & Htag). congruence.
Qed.

(** Elements the loop does not visit keep their attributes. *)
Lemma loop_elsewhere rs r0 s :
  r0 ∉ rs → attrib_at r0 (for_each rs body s).2.1 = attrib_at r0 s.1.
Proof.
  intros Hr0.
  apply (for_each_invariant (λ s', attrib_at r0 s'.1 = attrib_at r0 s.1)); [|done].
  intros r s' Hr Hs'. destruct (body_local r s') as (_ & _ & Hother & _).
  rewrite Hother; [done|]. by intros ->.
Qed.

(** A loop that returns has given every element it visits the attributes
    [spec] tells. *)
Lemma loop_returns rs : NoDup rs →
  ∀ t w t' w', for_each rs body (t, w) = (Ok tt, (t', w')) →
  ∀ r a, r ∈ rs → attrib_at r t = Some a →
         attrib_at r t' = spec (fs w) a ∧ is_Some (spec (fs w) a).
Proof.
  induction 1 as [|x rs Hx _ IH]; intros t w t' w' Hrun r a Hr Ha.
  { by apply elem_of_nil in Hr. }
  rewrite for_each_cons in Hrun.
  destruct (body_local x (t, w)) as (Hfs & _ & Hother & _).
  destruct (body x (t, w)) as [[[]|e] [t1 w1]] eqn:Hturn; [|done]. simpl in *.
  apply elem_of_cons in Hr as [->|Hr].
  - destruct (body_returns x t w t1 w1 a Hturn Ha) as [Hspec Hsome].
    split; [|done]. rewrite <-Hspec.
    pose proof (loop_elsewhere rs x (t1, w1) Hx) as Hrest.
    by rewrite Hrun in Hrest.
  - rewrite <-Hfs. apply (IH t1 w1 t' w' Hrun r a Hr).
    rewrite Hother; [done|]. by intros ->.
Qed.

(** The exception of a loop is one its turns raise. *)
Lemma loop_raises (expected : exn → Prop) rs s e :
  (∀ r s0 e0, (body r s0).1 = Raise e0 → expected e0) →
  (for_each rs body s).1 = Raise e → expected e.
Proof. intros Hbody (r & s0 & _ & Hr)%for_each_raises. by apply (Hbody r s0). Qed.

End Rewriting.

(** [update_paths] as its two loops in sequence. *)
Lemma update_paths_run old new t w :
  update_paths old new (t, w) =
    match for_each (findall "asset" t) (update_asset old new) (t, w) with
    | (Ok _, (t1, w1)) => for_each (findall "clip" t1) (update_clip old new) (t1, w1)
    | (Raise e, s1) => (Raise e, s1)
    end.
Proof.
  unfold update_paths, bind, gets.
  by destruct (for_each (findall "asset" t) (update_asset old new) (t, w))
    as [[[]|e] [t1 w1]].
Qed.

Lemma findall_tagged tg t r :
  r ∈ findall tg t → ∃ e, lookup_at r t = Some e ∧ tag e = tg.
Proof. by intros [_ ?]%elem_of_findall. Qed.

(** The frame of [update_paths]: whatever the outcome, the tree keeps its
    [outside] and the world its files and journal. *)
Lemma update_paths_frame old new t w :
  let s' := (update_paths old new (t, w)).2 in
  outside s'.1 = outside t ∧ fs s'.2 = fs w ∧ journal s'.2 = journal w.
Proof.
  rewrite update_paths_run.
  pose proof (loop_frame (update_asset old new) "asset"
    (update_asset_local old new) (findall "asset" t) t w (findall_tagged "asset" t))
    as (Hout1 & Hfs1 & Hj1).
  destruct (for_each (findall "asset" t) (update_asset old new) (t, w))
    as [[[]|e] [t1 w1]]; [|done]. simpl in *.
  pose proof (loop_frame (update_clip old new) "clip"
    (update_clip_local old new) (findall "clip" t1) t1 w1 (findall_tagged "clip" t1))
    as (Hout2 & Hfs2 & Hj2).
  simpl. split; [|split]; congruence.
Qed.

(** What two elements with the same [outside] share. *)
Lemma outside_shared e e' :
  outside e = outside e' →
  tag e' = tag e ∧ text e' = text e ∧ tail e' = tail e
  ∧ length (children e') = length (children e)
  ∧ ∀ key, rewritable (tag e) key = false → attrib e' !! key = attrib e !! key.
Proof.
  destruct e as [t a x y cs], e' as [t' a' x' y' cs']. simpl.
  intros [= -> Ha -> -> Hcs]. repeat split.
  - apply (f_equal length) in Hcs. by rewrite !length_fmap in Hcs.
  - intros key Hkey. apply (f_equal (.!! key)) in Ha.
    rewrite !map_lookup_filter in Ha.
    destruct (a !! key) as [v|], (a' !! key) as [v'|]; simpl in Ha;
      rewrite ?option_guard_True in Ha by done; congruence.
Qed.

(** What a run of [update_paths] that returns has written. *)
Lemma update_paths_returns old new t w t' w' :
  update_paths old new (t, w) = (Ok tt, (t', w')) →
  ∀ r e, r ≠ [] → lookup_at r t = Some e →
    (tag e = "asset" →
       attrib_at r t' = asset_attrib_spec (fs w) old new (attrib e)
       ∧ is_Some (asset_attrib_spec (fs w) old new (attrib e)))
    ∧ (tag e = "clip" →
       attrib_at r t' = clip_attrib_spec (fs w) old new (attrib e)
       ∧ is_Some (clip_attrib_spec (fs w) old new (attrib e))).
Proof.
  rewrite update_paths_run. intros Hrun r e Hr He.
  pose proof (loop_frame (update_asset old new) "asset"
    (update_asset_local old new) (findall "asset" t) t w (findall_tagged "asset" t))
    as (Hout1 & Hfs1 & _).
  destruct (for_each (findall "asset" t) (update_asset old new) (t, w))
    as [[[]|e1] [t1 w1]] eqn:Hassets; [|done]. simpl in Hout1, Hfs1.
  assert (attrib_at r t = Some (attrib e)) as Ha by (unfold attrib_at; by rewrite He).
  destruct (outside_tag_at r t t1 e (eq_sym Hout1) He) as (e1 & He1 & Htag1).
  split; intros Htag.
  - assert (r ∈ findall "asset" t) as Hin by (apply elem_of_findall; eauto).
    destruct (loop_returns (update_asset old new) "asset"
      (λ m, asset_attrib_spec m old new)
      (update_asset_local old new) (update_asset_returns old new)
      _ (NoDup_findall "asset" t) t w t1 w1 Hassets r _ Hin Ha) as [Hspec Hsome].
    split; [|done]. rewrite <-Hspec.
    pose proof (loop_elsewhere (update_clip old new) "clip"
      (update_clip_local old new) (findall "clip" t1) r (t1, w1)) as Hrest.
    rewrite Hrun in Hrest. apply Hrest.
    intros (_ & e2 & He2 & Htag2)%elem_of_findall. congruence.
  - assert (r ∈ findall "clip" t1) as Hin.
    { apply elem_of_findall. split; [done|]. exists e1. split; congruence. }
    assert (attrib_at r t1 = Some (attrib e)) as Ha1.
    { pose proof (loop_elsewhere (update_asset old new) "asset"
        (update_asset_local old new) (findall "asset" t) r (t, w)) as Hrest.
      rewrite Hassets in Hrest. rewrite <-Ha. apply Hrest.
      intros (_ & e2 & He2 & Htag2)%elem_of_findall. congruence. }
    rewrite <-Hfs1.
    apply (loop_returns (update_clip old new) "clip"
      (λ m, clip_attrib_spec m old new)
      (update_clip_local old new) (update_clip_returns old new)
      _ (NoDup_findall "clip" t1) t1 w1 t' w' Hrun r _ Hin Ha1).
Qed.

(** The exceptions [update_paths] can end with. *)
Lemma update_paths_raises old new s e :
  (update_paths old new s).1 = Raise e →
  e = KeyError "id" ∨ e = KeyError "asset-id" ∨ e = ValueError.
Proof.
  destruct s as [t w]. rewrite update_paths_run.
  destruct (for_each (findall "asset" t) (update_asset old new) (t, w))
    as [[[]|e1] [t1 w1]] eqn:Hassets.
  - intros H.
    apply (loop_raises (update_clip old new)
      (λ e, e = KeyError "asset-id" ∨ e = ValueError)) in H;
      [destruct H as [H|H]; auto|].
    intros r s0 e0. apply update_clip_raises.
  - intros [= <-].
    assert ((for_each (findall "asset" t) (update_asset old new) (t, w)).1 = Raise e1)
      as H by (by rewrite Hassets).
    apply (loop_raises (update_asset old new)
      (λ e, e = KeyError "id" ∨ e = ValueError)) in H;
      [destruct H as [H|H]; auto|].
    intros r s0 e0. apply update_asset_raises.
Qed.

(** C10: whatever the outcome of [update_paths], the tree it leaves has
    the [outside] of the tree it was given; that is, at every place there is
    an element with the same tag, text, tail and number of children, and with
    the same value, or none, for every attribute but [id] and [proxy-id] of
    an [asset] and [asset-id] of a [clip]. *)
Theorem update_paths_writes_uris_only old new t w :
  let t' := (update_paths old new (t, w)).2.1 in
  outside t' = outside t
  ∧ ∀ r, match lookup_at r t, lookup_at r t' with
         | Some e, Some e' =>
             tag e' = tag e ∧ text e' = text e ∧ tail e' = tail e
             ∧ length (children e') = length (children e)
             ∧ ∀ key, rewritable (tag e) key = false →
                      attrib e' !! key = attrib e !! key
         | None, None => True
         | _, _ => False
         end.
Proof.
  destruct (update_paths_frame old new t w) as (Hout & _ & _).
  split; [done|]. intros r.
  pose proof (lookup_at_outside r t) as H1.
  pose proof (lookup_at_outside r (update_paths old new (t, w)).2.1) as H2.
  rewrite Hout, H1 in H2.
  destruct (lookup_at r t) as [e|],
    (lookup_at r (update_paths old new (t, w)).2.1) as [e'|]; try done.
  apply outside_shared. by injection H2.
Qed.

(** C9, amended: when [update_paths] returns, every [asset] element below
    the root has its [id] rewritten by [update_uri], and its [proxy-id]
    rewritten by [update_uri] when that attribute was there and not empty,
    and left as it was otherwise.  Each value is what [update_uri] returns
    for it over the file system of the call: what becomes of [id] has no
    part in what becomes of [proxy-id]. *)
Theorem update_paths_rewrites_assets old new t w t' w' :
  update_paths old new (t, w) = (Ok tt, (t', w')) →
  ∀ r e, r ≠ [] → lookup_at r t = Some e → tag e = "asset" →
  ∃ e', lookup_at r t' = Some e'
    ∧ Some (attrib e') = asset_attrib_spec (fs w) old new (attrib e)
    ∧ (∃ id id', attrib e !! "id" = Some id
         ∧ update_uri_result (fs w) old new id = Ok id'
         ∧ attrib e' !! "id" = Some id')
    ∧ match attrib e !! "proxy-id" with
      | Some proxy =>
          if bool_decide (proxy ≠ "") then
            ∃ proxy', update_uri_result (fs w) old new proxy = Ok proxy'
                      ∧ attrib e' !! "proxy-id" = Some proxy'
          else attrib e' !! "proxy-id" = Some proxy
      | None => attrib e' !! "proxy-id" = None
      end.
Proof.
  intros Hrun r e Hr He Htag.
  destruct (update_paths_returns old new t w t' w' Hrun r e Hr He) as [Hasset _].
  destruct (Hasset Htag) as [Hspec [a' Ha']]. unfold attrib_at in Hspec.
  destruct (lookup_at r t') as [e'|]; [|by rewrite Ha' in Hspec].
  exists e'. split; [done|]. split; [done|]. simpl in Hspec.
  rewrite Ha' in Hspec. injection Hspec as ->.
  unfold asset_attrib_spec in Ha'.
  destruct (attrib e !! "id") as [id|]; [|done]. simpl in Ha'.
  destruct (update_uri_result (fs w) old new id) as [id'|] eqn:Hid'; [|done].
  destruct (attrib e !! "proxy-id") as [proxy|] eqn:Hproxy.
  - case_bool_decide.
    + destruct (update_uri_result (fs w) old new proxy) as [proxy'|] eqn:Hproxy';
        [|done].
      injection Ha' as <-. split.
      * exists id, id'. by rewrite lookup_insert_ne, lookup_insert_eq.
      * exists proxy'. by rewrite lookup_insert_eq.
    + injection Ha' as <-. split.
      * exists id, id'. by rewrite lookup_insert_eq.
      * by rewrite lookup_insert_ne.
  - injection Ha' as <-. split.
    + exists id, id'. by rewrite lookup_insert_eq.
    + by rewrite lookup_insert_ne.
Qed.

(** C5, amended: an [asset] below the root without [id], or a [clip]
    below the root without [asset-id], makes [update_paths] end with an
    exception it does not handle ([KeyError] on the missing attribute,
    unless the [ValueError] of an ill-formed URI came first); while for an
    asset without [proxy-id] the turn of the loop rewrites [id] and returns,
    raising and printing nothing on account of the missing attribute. *)
Theorem update_paths_missing_attribute old new t w :
  ((∃ r e, r ≠ [] ∧ lookup_at r t = Some e
           ∧ (tag e = "asset" ∧ attrib e !! "id" = None
              ∨ tag e = "clip" ∧ attrib e !! "asset-id" = None)) →
   ∃ x, (update_paths old new (t, w)).1 = Raise x
        ∧ (x = KeyError "id" ∨ x = KeyError "asset-id" ∨ x = ValueError))
  ∧ (∀ r e id id' w1,
       lookup_at r t = Some e → attrib e !! "id" = Some id →
       attrib e !! "proxy-id" = None →
       update_uri old new id w = (Ok id', w1) →
       update_asset old new r (t, w)
       = (Ok tt, (modify_at (set_attrib "id" id') r t, w1))).
Proof.
  split.
  - intros (r & e & Hr & He & Hbad).
    destruct (update_paths old new (t, w)) as [[[]|x] [t' w']] eqn:Hrun.
    + destruct (update_paths_returns old new t w t' w' Hrun r e Hr He)
        as [Hasset Hclip].
      destruct Hbad as [[Htag Hnone]|[Htag Hnone]].
      * destruct (Hasset Htag) as [_ [a' Ha']]. unfold asset_attrib_spec in Ha'.
        by rewrite Hnone in Ha'.
      * destruct (Hclip Htag) as [_ [a' Ha']]. unfold clip_attrib_spec in Ha'.
        by rewrite Hnone in Ha'.
    + exists x. split; [done|]. apply (update_paths_raises old new (t, w)).
      by rewrite Hrun.
  - intros r e id id' w1 He Hid Hproxy Huri. rewrite update_asset_run.
    unfold attrib_at. rewrite He. simpl. by rewrite Hid, Huri, Hproxy.
Qed.

Lemma printed_only_refl w : printed_only w w.
Proof.
  split; [done|]. split; [done|]. exists []. split; [by rewrite app_nil_r|].
  constructor.
Qed.

Lemma printed_only_trans w1 w2 w3 :
  printed_only w1 w2 → printed_only w2 w3 → printed_only w1 w3.
Proof.
  intros (Hfs1 & Hj1 & out1 & Hout1 & Hw1) (Hfs2 & Hj2 & out2 & Hout2 & Hw2).
  split; [congruence|]. split; [congruence|]. exists (out1 ++ out2). split.
  - by rewrite Hout2, Hout1, app_assoc.
  - apply Forall_app. split; [done|]. by rewrite <-Hfs1.
Qed.

Lemma update_uri_prints old new u w : printed_only w (update_uri old new u w).2.
Proof.
  unfold update_uri. destruct (urlsplit u) as [parts|e] eqn:Hsplit;
    [|apply printed_only_refl].
  case_bool_decide as Hscheme; [|apply printed_only_refl].
  pose proof (update_uri_file old new u parts w Hsplit Hscheme) as Hrun.
  cbv zeta in Hrun. unfold update_uri in Hrun.
  rewrite Hsplit, bool_decide_eq_true_2 in Hrun by done. rewrite Hrun.
  destruct (fs w !! PyStr.replace1 old new (Urllib.unquote (path parts)))
    as [n|] eqn:Hp; [apply printed_only_refl|].
  split; [done|]. split; [done|]. eexists. split; [reflexivity|].
  constructor; [|constructor]. by eexists.
Qed.

Lemma update_asset_prints old new r s :
  printed_only s.2 (update_asset old new r s).2.2.
Proof.
  destruct s as [t w]. rewrite update_asset_run.
  destruct (attrib_at r t ≫= (.!! "id")) as [id|]; [|apply printed_only_refl].
  pose proof (update_uri_prints old new id w) as H1.
  destruct (update_uri old new id w) as [[id'|e] w1]; [|done]. cbv zeta.
  destruct (attrib_at r t ≫= (.!! "proxy-id")) as [proxy|]; [|done].
  case_bool_decide; [|done].
  pose proof (update_uri_prints old new proxy w1) as H2.
  destruct (update_uri old new proxy w1) as [[proxy'|e] w2];
    by apply (printed_only_trans _ w1).
Qed.

Lemma update_clip_prints old new r s :
  printed_only s.2 (update_clip old new r s).2.2.
Proof.
  destruct s as [t w]. rewrite update_clip_run.
  destruct (attrib_at r t ≫= (.!! "asset-id")) as [asset_id|];
    [|apply printed_only_refl].
  pose proof (update_uri_prints old new asset_id w) as H1.
  by destruct (update_uri old new asset_id w) as [[asset_id'|e] w1].
Qed.

Lemma update_paths_prints old new t w :
  printed_only w (update_paths old new (t, w)).2.2.
Proof.
  rewrite update_paths_run.
  pose proof (for_each_invariant (λ s : doc_state, printed_only w s.2)
    (findall "asset" t) (update_asset old new)) as Hassets.
  specialize (Hassets
    (λ r s _ Hs, printed_only_trans _ _ _ Hs (update_asset_prints old new r s))
    (t, w) (printed_only_refl w)).
  destruct (for_each (findall "asset" t) (update_asset old new) (t, w))
    as [[[]|e] [t1 w1]]; [|done].
  apply (for_each_invariant (λ s : doc_state, printed_only w s.2)); [|done].
  intros r s _ Hs.
  exact (printed_only_trans _ _ _ Hs (update_clip_prints old new r s)).
Qed.

(** ** [main] *)

Lemma backup_file_journal p w : journal (backup_file p w).2 = journal w.
Proof.
  unfold backup_file, bind, os_path_exists, gets, print, modify.
  case_bool_decide; [done|].
  unfold shutil_move, shutil_copy2, bind, gets, modify, set_fs, raise. simpl.
  destruct (fs w !! p) as [[c|]|]; simpl; by rewrite ?lookup_insert_eq.
Qed.

Lemma on_tree_update_paths_journal old new tree w :
  journal (on_tree tree (update_paths old new) w).2 = journal w.
Proof.
  unfold on_tree. pose proof (update_paths_frame old new tree w) as (_ & _ & Hj).
  by destruct (update_paths old new (tree, w)) as [[[]|e] [t' w']].
Qed.

(** The steps on one file start in the order parse, backup, rewrite,
    persist, and all four have started when the file is done. *)
Lemma process_file_steps args f w :
  let p := os_path_join (xges_path args) f in
  ∃ k, k ≤ 4
       ∧ journal (process_file args f w).2 = journal w ++ take k (steps_of_file p)
       ∧ ((process_file args f w).1 = Ok tt → k = 4).
Proof.
  intros p.
  set (Q := λ res : outcome unit * world,
    ∃ k, k ≤ 4 ∧ journal res.2 = journal w ++ take k (steps_of_file p)
         ∧ (res.1 = Ok tt → k = 4)).
  change (Q (process_file args f w)).
  unfold process_file. fold p.
  unfold bind at 1. unfold enter at 1, modify at 1.
  unfold bind at 1. unfold ElementTree_parse, bind at 1, gets, raise, ret. cbn [fs].
  destruct (fs w !! p) as [[[root|raw]|]|];
    [|by (exists 1; split; [lia|])..].
  unfold bind at 1. unfold enter at 1, modify at 1.
  unfold bind at 1.
  match goal with |- context [backup_file p ?w1] =>
    pose proof (backup_file_journal p w1) as Hj1;
    destruct (backup_file p w1) as [[[]|e1] w2]
  end; cbn [journal snd] in Hj1;
    [|exists 2; split; [lia|]; split; [|done]; cbn [snd]; rewrite Hj1;
      by rewrite <-app_assoc].
  unfold bind at 1. unfold print at 1, modify at 1.
  unfold bind at 1. unfold enter at 1, modify at 1. cbn [fs stdout journal].
  unfold bind at 1.
  match goal with |- context [on_tree root ?m ?w3] =>
    pose proof (on_tree_update_paths_journal (old_path args) (new_path args) root w3)
      as Hj2;
    destruct (on_tree root m w3) as [[tree'|e2] w4]
  end; cbn [journal snd] in Hj2;
    [|exists 3; split; [lia|]; split; [|done]; cbn [snd]; rewrite Hj2, Hj1;
      by rewrite <-!app_assoc].
  exists 4. split; [lia|]. split; [|done].
  unfold bind, enter, modify, ElementTree_write, bind, print, modify, set_fs, raise, ret.
  destruct (serializer_overflows tree'); cbn [snd journal]; rewrite Hj2, Hj1;
    by rewrite <-!app_assoc.
Qed.

(** A file that does not parse is left as it is: the run ends before any
    backup is made or any line printed. *)
Lemma process_file_unparsed args f w :
  let p := os_path_join (xges_path args) f in
  match fs w !! p with
  | Some (File (Doc _)) => True
  | _ => ∃ e, process_file args f w
              = (Raise e, {| fs := fs w; stdout := stdout w;
                             journal := journal w ++ [Parse p] |})
  end.
Proof.
  intros p. unfold process_file. fold p.
  unfold bind, enter, modify, ElementTree_parse, bind, gets, raise. cbn [fs].
  destruct (fs w !! p) as [[[root|raw]|]|]; eauto.
Qed.

(** What [backup_file] does for a regular file. *)
Lemma backup_file_run p w c :
  fs w !! p = Some (File c) →
  backup_file p w
  = (Ok tt, {| fs := backed_up (fs w) p c;
               stdout := stdout w ++ [backup_line (fs w) p];
               journal := journal w |}).
Proof.
  intros Hfile. unfold backed_up, backup_line.
  destruct (fs w !! (p +:+ ".original")) as [n|] eqn:Hbackup.
  - by rewrite backup_file_skips by (by rewrite Hbackup).
  - by rewrite (backup_file_moves p w c).
Qed.

(** The turn of [main] for a file that holds a document: [update_paths]
    runs on the tree read, in the world the backup and the two lines
    leave, and [tree.write] is reached when it returns. *)
Lemma process_file_run args f w root :
  let p := os_path_join (xges_path args) f in
  fs w !! p = Some (File (Doc root)) →
  process_file args f w
  = match update_paths (old_path args) (new_path args)
            (root, backed_up_world args p root w) with
    | (Raise e, (_, wr')) => (Raise e, wr')
    | (Ok _, (tree', wr')) =>
        if serializer_overflows tree' then
          (Raise RecursionError,
           {| fs := <[p := File (serialized tree')]> (fs wr');
              stdout := stdout wr'; journal := journal wr' ++ [Persist p] |})
        else
          (Ok tt,
           {| fs := <[p := File (serialized tree')]> (fs wr');
              stdout := stdout wr' ++ [done_line];
              journal := journal wr' ++ [Persist p] |})
    end.
Proof.
  intros p Hp. unfold process_file. fold p.
  unfold bind at 1. unfold enter at 1, modify at 1.
  unfold bind at 1. unfold ElementTree_parse, bind at 1, gets, raise, ret. cbn [fs].
  rewrite Hp.
  unfold bind at 1. unfold enter at 1, modify at 1.
  unfold bind at 1. rewrite (backup_file_run p _ (Doc root)) by done.
  cbn [fs stdout journal].
  unfold bind at 1. unfold print at 1, modify at 1.
  unfold bind at 1. unfold enter at 1, modify at 1. cbn [fs stdout journal].
  unfold bind at 1. unfold on_tree.
  match goal with |- context [update_paths _ _ (root, ?w3)] =>
    replace w3 with (backed_up_world args p root w)
      by (unfold backed_up_world, changing_line; by rewrite <-!app_assoc)
  end.
  destruct (update_paths (old_path args) (new_path args)
              (root, backed_up_world args p root w)) as [[[]|e] [tree' wr']];
    [|done].
  unfold bind, enter, modify, ElementTree_write, bind, modify, set_fs, print, modify,
    raise, ret, done_line.
  by destruct (serializer_overflows tree').
Qed.

(** The journal of a run. *)
Lemma main_journal args xges_files : ∀ w,
  ∃ n, journal (main args xges_files w).2
       = journal w ++ take n (steps_of_main args xges_files)
     ∧ ((main args xges_files w).1 = Ok tt →
        journal (main args xges_files w).2
        = journal w ++ steps_of_main args xges_files).
Proof.
  unfold main. induction xges_files as [|f files IH]; intros w.
  { exists 0. simpl. by rewrite app_nil_r. }
  rewrite for_each_cons.
  destruct (process_file_steps args f w) as (k & Hk & Hj & Hdone).
  change (steps_of_main args (f :: files))
    with (steps_of_file (os_path_join (xges_path args) f) ++ steps_of_main args files).
  destruct (process_file args f w) as [[[]|e] w1]; simpl in Hj.
  - rewrite (Hdone eq_refl) in Hj. destruct (IH w1) as (n & Hn & Hall).
    exists (4 + n). split.
    + etrans; [exact Hn|]. rewrite Hj. by rewrite <-app_assoc.
    + intros Hok. etrans; [exact (Hall Hok)|]. rewrite Hj. by rewrite <-app_assoc.
  - exists k. split; [|done]. etrans; [exact Hj|]. f_equal.
    by rewrite take_app_le by (simpl; lia).
Qed.

(** C6, amended: [main] takes the files one after the other, a turn being
    over before the next begins; and in a turn it parses the file, then
    backs it up, then rewrites the tree, then writes it.  The effects say
    so.  The turn for a file that is not a well-formed document ends with
    an exception, no file changed and no line printed: it was read before
    any backup was made.  When the turn for a document returns,
    [update_paths] has returned on the tree as it was read, over the files
    with the backup in place and after the line of the backup and the line
    of the change to come; the file holds what [tree.write] made of the
    tree [update_paths] left, while its backup holds the document as it was
    read, unless a backup was there already; and the lines printed are, in
    this order, the one of the backup, the one of the change, the warnings
    of the rewriting, and the closing one.  When the turn for a document
    ends with an exception its content gives rise to, [update_paths] has
    raised it, with the backup in place, and the turn ends in the world
    [update_paths] left: nothing has been written.  The journal of a run,
    too, grows by a prefix of [steps_of_main], and by all of it when the run
    returns. *)
Theorem main_steps_in_order args :
  (∀ f xges_files w,
     main args (f :: xges_files) w
     = match process_file args f w with
       | (Ok _, w1) => main args xges_files w1
       | (Raise e, w1) => (Raise e, w1)
       end)
  ∧ (∀ f w,
       match fs w !! os_path_join (xges_path args) f with
       | Some (File (Doc _)) => True
       | _ => ∃ e, process_file args f w
                   = (Raise e,
                      {| fs := fs w; stdout := stdout w;
                         journal := journal w
                                    ++ [Parse (os_path_join (xges_path args) f)] |})
       end)
  ∧ (∀ f w root w',
       let p := os_path_join (xges_path args) f in
       fs w !! p = Some (File (Doc root)) →
       process_file args f w = (Ok tt, w') →
       ∃ tree' wr' out,
         update_paths (old_path args) (new_path args)
           (root, backed_up_world args p root w)
         = (Ok tt, (tree', wr'))
         ∧ fs w' = <[p := File (serialized tree')]> (backed_up (fs w) p (Doc root))
         ∧ stdout w'
           = stdout w ++ [backup_line (fs w) p; changing_line args p]
             ++ out ++ [done_line]
         ∧ only_warnings (backed_up (fs w) p (Doc root)) out)
  ∧ (∀ f w root e w',
       let p := os_path_join (xges_path args) f in
       fs w !! p = Some (File (Doc root)) →
       process_file args f w = (Raise e, w') →
       of_the_document e →
       (∃ tree', update_paths (old_path args) (new_path args)
                   (root, backed_up_world args p root w)
                 = (Raise e, (tree', w')))
       ∧ fs w' = backed_up (fs w) p (Doc root))
  ∧ (∀ xges_files w,
       ∃ n, journal (main args xges_files w).2
            = journal w ++ take n (steps_of_main args xges_files)
          ∧ ((main args xges_files w).1 = Ok tt →
             journal (main args xges_files w).2
             = journal w ++ steps_of_main args xges_files)).
Proof.
  split; [intros f xges_files w; apply for_each_cons|].
  split; [intros f w; apply process_file_unparsed|].
  split; [|split; [|apply main_journal]].
  - intros f w root w' p Hp Hrun.
    rewrite (process_file_run args f w root Hp) in Hrun. fold p in Hrun.
    pose proof (update_paths_frame (old_path args) (new_path args) root
                  (backed_up_world args p root w)) as (_ & Hfs & _).
    pose proof (update_paths_prints (old_path args) (new_path args) root
                  (backed_up_world args p root w)) as (_ & _ & out & Hout & Hwarn).
    destruct (update_paths (old_path args) (new_path args)
                (root, backed_up_world args p root w)) as [[[]|e] [tree' wr']];
      [|done].
    destruct (serializer_overflows tree'); [done|]. injection Hrun as <-.
    exists tree', wr', out. cbn [fs stdout snd fst backed_up_world] in *.
    split; [done|]. split; [by rewrite Hfs|]. split; [|done].
    rewrite Hout. by rewrite <-!app_assoc.
  - intros f w root e w' p Hp Hrun He.
    rewrite (process_file_run args f w root Hp) in Hrun. fold p in Hrun.
    pose proof (update_paths_frame (old_path args) (new_path args) root
                  (backed_up_world args p root w)) as (_ & Hfs & _).
    destruct (update_paths (old_path args) (new_path args)
                (root, backed_up_world args p root w)) as [[[]|e'] [tree' wr']].
    + destruct (serializer_overflows tree'); [|done].
      injection Hrun as <- _. done.
    + injection Hrun as <- <-. split; [by exists tree'|]. exact Hfs.
Qed.

(** ** More on [update_paths] *)

(** X1: whatever its outcome, [update_paths] leaves every file as it is,
    and all it prints are warnings, each about a path that does not exist. *)
Theorem update_paths_prints_warnings_only old new t w :
  fs (update_paths old new (t, w)).2.2 = fs w
  ∧ ∃ out, stdout (update_paths old new (t, w)).2.2 = stdout w ++ out
           ∧ Forall (λ line, ∃ p, fs w !! p = None ∧ line = warning_line p) out.
Proof. destruct (update_paths_prints old new t w) as (Hfs & _ & Hout). by split. Qed.

(** X2: when [update_paths] returns, every [clip] element below the root
    has its [asset-id] rewritten by [update_uri], and no other attribute
    changed. *)
Theorem update_paths_rewrites_clips old new t w t' w' :
  update_paths old new (t, w) = (Ok tt, (t', w')) →
  ∀ r e, r ≠ [] → lookup_at r t = Some e → tag e = "clip" →
  ∃ e' asset_id asset_id',
    lookup_at r t' = Some e'
    ∧ attrib e !! "asset-id" = Some asset_id
    ∧ update_uri_result (fs w) old new asset_id = Ok asset_id'
    ∧ attrib e' = <["asset-id" := asset_id']> (attrib e).
Proof.
  intros Hrun r e Hr He Htag.
  destruct (update_paths_returns old new t w t' w' Hrun r e Hr He) as [_ Hclip].
  destruct (Hclip Htag) as [Hspec [a' Ha']]. unfold attrib_at in Hspec.
  destruct (lookup_at r t') as [e'|]; [|by rewrite Ha' in Hspec].
  rewrite Ha' in Hspec. simpl in Hspec. injection Hspec as Hattrib.
  unfold clip_attrib_spec in Ha'.
  destruct (attrib e !! "asset-id") as [asset_id|]; [|done]. simpl in Ha'.
  destruct (update_uri_result (fs w) old new asset_id) as [asset_id'|] eqn:Hres;
    [|done].
  injection Ha' as <-. by exists e', asset_id, asset_id'.
Qed.

(** X3: a clip that referred to an asset by its [id] still does after a
    run of [update_paths] that returns: both attributes went through the
    same rewriting over the same file system. *)
Theorem update_paths_keeps_references old new t w t' w' :
  update_paths old new (t, w) = (Ok tt, (t', w')) →
  ∀ ra asset rc clip uri,
    ra ≠ [] → lookup_at ra t = Some asset → tag asset = "asset" →
    rc ≠ [] → lookup_at rc t = Some clip → tag clip = "clip" →
    attrib asset !! "id" = Some uri → attrib clip !! "asset-id" = Some uri →
    ∃ asset' clip' uri',
      lookup_at ra t' = Some asset' ∧ lookup_at rc t' = Some clip'
      ∧ attrib asset' !! "id" = Some uri'
      ∧ attrib clip' !! "asset-id" = Some uri'.
Proof.
  intros Hrun ra asset rc clip uri Hra Hasset Hta Hrc Hclip Htc Hid Hasset_id.
  destruct (update_paths_returns old new t w t' w' Hrun ra asset Hra Hasset)
    as [Ha _].
  destruct (update_paths_returns old new t w t' w' Hrun rc clip Hrc Hclip)
    as [_ Hc].
  destruct (Ha Hta) as [Hspeca [a' Ha']]. destruct (Hc Htc) as [Hspecc [c' Hc']].
  unfold attrib_at in Hspeca, Hspecc.
  destruct (lookup_at ra t') as [asset'|]; [|by rewrite Ha' in Hspeca].
  destruct (lookup_at rc t') as [clip'|]; [|by rewrite Hc' in Hspecc].
  rewrite Ha' in Hspeca. rewrite Hc' in Hspecc. simpl in Hspeca, Hspecc.
  injection Hspeca as Hattriba. injection Hspecc as Hattribc.
  unfold asset_attrib_spec in Ha'. unfold clip_attrib_spec in Hc'.
  rewrite Hid in Ha'. rewrite Hasset_id in Hc'. simpl in Ha', Hc'.
  destruct (update_uri_result (fs w) old new uri) as [uri'|]; [|done].
  injection Hc' as <-. exists asset', clip', uri'. rewrite Hattriba, Hattribc.
  split; [done|]. split; [done|]. split; [|by rewrite lookup_insert_eq].
  destruct (attrib asset !! "proxy-id") as [proxy|].
  - case_bool_decide.
    + destruct (update_uri_result (fs w) old new proxy) as [proxy'|]; [|done].
      injection Ha' as <-. by rewrite lookup_insert_ne, lookup_insert_eq.
    + injection Ha' as <-. by rewrite lookup_insert_eq.
  - injection Ha' as <-. by rewrite lookup_insert_eq.
Qed.

(** [update_uri] returns exactly on the URIs [urlsplit] accepts. *)
Lemma update_uri_result_ok m old new u :
  (∃ v, update_uri_result m old new u = Ok v) ↔ accepted u.
Proof.
  unfold update_uri_result, accepted, update_uri.
  destruct (urlsplit u) as [parts|e]; [|by split; intros [? ?]].
  split; [by eauto|]. intros _. case_bool_decide; [|by eauto].
  unfold bind, file_exists, bind, os_path_exists, gets, print, modify, ret. simpl.
  case_bool_decide; by eauto.
Qed.

Lemma asset_attrib_spec_ok m old new a :
  is_Some (asset_attrib_spec m old new a) ↔
  (∃ id, a !! "id" = Some id ∧ accepted id)
  ∧ ∀ proxy, a !! "proxy-id" = Some proxy → proxy ≠ "" → accepted proxy.
Proof.
  unfold asset_attrib_spec. split.
  - intros [a' Ha'].
    destruct (a !! "id") as [id|]; [|done]. simpl in Ha'.
    destruct (update_uri_result m old new id) as [id'|] eqn:Hid; [|done].
    split; [exists id; split; [done|]; apply (update_uri_result_ok m old new); eauto|].
    intros proxy Hproxy Hne. rewrite Hproxy, bool_decide_eq_true_2 in Ha' by done.
    destruct (update_uri_result m old new proxy) as [proxy'|] eqn:Hp; [|done].
    apply (update_uri_result_ok m old new). eauto.
  - intros [(id & Hid & Hacc) Hproxy]. rewrite Hid. simpl.
    apply (update_uri_result_ok m old new) in Hacc as [id' ->].
    destruct (a !! "proxy-id") as [proxy|]; [|by eauto].
    case_bool_decide as Hne; [|by eauto].
    destruct (proj2 (update_uri_result_ok m old new proxy) (Hproxy proxy eq_refl Hne))
      as [proxy' ->]. by eauto.
Qed.

Lemma clip_attrib_spec_ok m old new a :
  is_Some (clip_attrib_spec m old new a) ↔
  ∃ asset_id, a !! "asset-id" = Some asset_id ∧ accepted asset_id.
Proof.
  unfold clip_attrib_spec. split.
  - intros [a' Ha']. destruct (a !! "asset-id") as [asset_id|]; [|done].
    simpl in Ha'.
    destruct (update_uri_result m old new asset_id) as [v|] eqn:Hv; [|done].
    exists asset_id. split; [done|]. apply (update_uri_result_ok m old new). eauto.
  - intros (asset_id & -> & Hacc). simpl.
    apply (update_uri_result_ok m old new) in Hacc as [v ->]. by eauto.
Qed.

(** A turn returns when the specification gives the element attributes. *)
Lemma update_asset_completes old new r t w a :
  attrib_at r t = Some a → is_Some (asset_attrib_spec (fs w) old new a) →
  (update_asset old new r (t, w)).1 = Ok tt.
Proof.
  intros Ha [a' Ha']. rewrite update_asset_run, Ha. simpl.
  unfold asset_attrib_spec in Ha'.
  destruct (a !! "id") as [id|]; [|done]. simpl in *.
  rewrite <-update_uri_outcome in Ha'.
  pose proof (update_uri_world old new id w) as [Hfs1 _].
  destruct (update_uri old new id w) as [[id'|e] w1]; [|done]. simpl in *.
  destruct (a !! "proxy-id") as [proxy|]; [|done].
  case_bool_decide; [|done].
  rewrite <-Hfs1, <-update_uri_outcome in Ha'.
  by destruct (update_uri old new proxy w1) as [[proxy'|e] w2].
Qed.

Lemma update_clip_completes old new r t w a :
  attrib_at r t = Some a → is_Some (clip_attrib_spec (fs w) old new a) →
  (update_clip old new r (t, w)).1 = Ok tt.
Proof.
  intros Ha [a' Ha']. rewrite update_clip_run, Ha. simpl.
  unfold clip_attrib_spec in Ha'.
  destruct (a !! "asset-id") as [asset_id|]; [|done]. simpl in *.
  rewrite <-update_uri_outcome in Ha'.
  by destruct (update_uri old new asset_id w) as [[v|e] w1].
Qed.

Section Completion.

Variable body : ref → M doc_state unit.
Variable tg : string.
Variable spec : gmap string node → gmap string string → option (gmap string string).

Hypothesis body_local : ∀ r s, local_to r tg s (body r s).2.
Hypothesis body_completes : ∀ r t w a,
  attrib_at r t = Some a → is_Some (spec (fs w) a) → (body r (t, w)).1 = Ok tt.

(** A loop returns when each of its turns is bound to. *)
Lemma loop_completes rs : NoDup rs →
  ∀ t w, (∀ r, r ∈ rs → ∃ a, attrib_at r t = Some a ∧ is_Some (spec (fs w) a)) →
         (for_each rs body (t, w)).1 = Ok tt.
Proof.
  induction 1 as [|x rs Hx _ IH]; intros t w Hall; [done|].
  rewrite for_each_cons.
  destruct (Hall x ltac:(left)) as (a & Ha & Hspec).
  pose proof (body_completes x t w a Ha Hspec) as Hturn.
  destruct (body_local x (t, w)) as (Hfs & _ & Hother & _).
  destruct (body x (t, w)) as [[[]|e] [t1 w1]]; [|done]. simpl in *.
  apply IH. intros r Hr. destruct (Hall r ltac:(by right)) as (a' & Ha' & Hspec').
  exists a'. rewrite Hfs. split; [|done]. rewrite Hother; [done|]. by intros ->.
Qed.

End Completion.

Lemma rewritable_document_spec old new t m :
  rewritable_document t ↔
  ∀ r e, r ≠ [] → lookup_at r t = Some e →
    (tag e = "asset" → is_Some (asset_attrib_spec m old new (attrib e)))
    ∧ (tag e = "clip" → is_Some (clip_attrib_spec m old new (attrib e))).
Proof.
  unfold rewritable_document.
  split; intros H r e Hr He; destruct (H r e Hr He) as [Ha Hc]; split; intros Htag.
  - by apply asset_attrib_spec_ok, Ha.
  - by apply clip_attrib_spec_ok, Hc.
  - by apply (asset_attrib_spec_ok m old new), Ha.
  - by apply (clip_attrib_spec_ok m old new), Hc.
Qed.

(** X4: [update_paths] returns exactly on the documents in which, below
    the root, every asset has an [id], every clip an [asset-id], and
    [urlsplit] accepts each of these and each non-empty [proxy-id]; whether
    the paths exist plays no part. *)
Theorem update_paths_returns_iff old new t w :
  (update_paths old new (t, w)).1 = Ok tt ↔ rewritable_document t.
Proof.
  rewrite (rewritable_document_spec old new t (fs w)). split.
  - intros Hok r e Hr He.
    destruct (update_paths old new (t, w)) as [[[]|x] [t' w']] eqn:Hrun; [|done].
    destruct (update_paths_returns old new t w t' w' Hrun r e Hr He) as [Ha Hc].
    split; intros Htag; [by apply Ha | by apply Hc].
  - intros Hdoc. rewrite update_paths_run.
    pose proof (loop_completes (update_asset old new) "asset"
      (λ m, asset_attrib_spec m old new)
      (update_asset_local old new) (update_asset_completes old new)
      (findall "asset" t) (NoDup_findall "asset" t) t w) as Hassets.
    pose proof (loop_frame (update_asset old new) "asset"
      (update_asset_local old new) (findall "asset" t) t w (findall_tagged "asset" t))
      as (Hout1 & Hfs1 & _).
    pose proof (loop_elsewhere (update_asset old new) "asset"
      (update_asset_local old new) (findall "asset" t)) as Helse.
    destruct (for_each (findall "asset" t) (update_asset old new) (t, w))
      as [[[]|e1] [t1 w1]] eqn:Hloop1; simpl in Hout1, Hfs1.
    + apply (loop_completes (update_clip old new) "clip"
        (λ m, clip_attrib_spec m old new)
        (update_clip_local old new) (update_clip_completes old new)
        _ (NoDup_findall "clip" t1)).
      intros r (Hr & e1 & He1 & Htag1)%elem_of_findall.
      destruct (outside_tag_at r t1 t e1 Hout1 He1) as (e & He & Htag).
      exists (attrib e). rewrite Hfs1. split.
      * specialize (Helse r (t, w)). rewrite Hloop1 in Helse. simpl in Helse.
        rewrite Helse; [by unfold attrib_at; rewrite He|].
        intros (_ & e2 & He2 & Htag2)%elem_of_findall. congruence.
      * apply (Hdoc r e Hr He). congruence.
    + exfalso. assert (Ok tt = Raise e1) as Habs; [|done].
      rewrite <-Hassets; [done|].
      intros r (Hr & e & He & Htag)%elem_of_findall.
      exists (attrib e). split; [by unfold attrib_at; rewrite He|].
      by apply (Hdoc r e Hr He).
Qed.

(** ** More on [backup_file] and [main] *)

(** X5: without a backup and without the original, [backup_file] prints
    its line about moving, then ends with [FileNotFoundError]; no file is
    made. *)
Theorem backup_file_missing_original p w :
  fs w !! (p +:+ ".original") = None → fs w !! p = None →
  backup_file p w
  = (Raise (FileNotFoundError p),
     {| fs := fs w; stdout := stdout w ++ [move_line p]; journal := journal w |}).
Proof.
  intros Hfresh Hmissing. unfold backup_file, bind, os_path_exists, gets.
  rewrite bool_decide_eq_false_2 by (rewrite Hfresh; by intros [? ?]).
  unfold print, modify, shutil_move, bind, gets, raise. simpl. by rewrite Hmissing.
Qed.

(** What [backup_file] does to the files when the original is a regular
    file: it returns, having at most added the backup. *)
Lemma backup_file_of_file p w c :
  fs w !! p = Some (File c) →
  (backup_file p w).1 = Ok tt
  ∧ fs (backup_file p w).2
    = match fs w !! (p +:+ ".original") with
      | Some _ => fs w
      | None => <[p +:+ ".original" := File c]> (fs w)
      end.
Proof.
  intros Hfile. destruct (fs w !! (p +:+ ".original")) as [n|] eqn:Hbackup.
  - by rewrite backup_file_skips by (by rewrite Hbackup).
  - by rewrite (backup_file_moves p w c).
Qed.

(** X6: when the original is not a directory, [backup_file] changes no
    path but the original and its backup, whatever its outcome. *)
Theorem backup_file_keeps_other_paths p w q :
  fs w !! p ≠ Some Dir → q ≠ p → q ≠ p +:+ ".original" →
  fs (backup_file p w).2 !! q = fs w !! q.
Proof.
  intros Hkind Hp' Hq. destruct (fs w !! p) as [[c|]|] eqn:Hp; [|done|].
  - rewrite (backup_file_run p w c Hp). cbn [fs snd]. unfold backed_up.
    destruct (fs w !! (p +:+ ".original")); [done|]. by rewrite lookup_insert_ne.
  - destruct (fs w !! (p +:+ ".original")) as [n|] eqn:Hbackup.
    + by rewrite backup_file_skips by (by rewrite Hbackup).
    + unfold backup_file, bind, os_path_exists, gets.
      rewrite bool_decide_eq_false_2 by (rewrite Hbackup; by intros [? ?]).
      unfold print, modify, shutil_move, bind, gets, raise. simpl. by rewrite Hp.
Qed.

(** The files after the turn of [main] for one file. *)
Lemma process_file_fs args f w :
  let p := os_path_join (xges_path args) f in
  match fs w !! p with
  | Some (File (Doc root)) =>
      let backed := backed_up (fs w) p (Doc root) in
      match (process_file args f w).1 with
      | Raise RecursionError =>
          fs (process_file args f w).2 = backed
          ∨ ∃ tree', fs (process_file args f w).2
                     = <[p := File (serialized tree')]> backed
      | Raise _ => fs (process_file args f w).2 = backed
      | Ok _ =>
          ∃ tree' wr',
            fs (process_file args f w).2 = <[p := File (serialized tree')]> backed
            ∧ update_paths (old_path args) (new_path args)
                (root, backed_up_world args p root w)
              = (Ok tt, (tree', wr'))
      end
  | _ => fs (process_file args f w).2 = fs w ∧ ∃ e, (process_file args f w).1 = Raise e
  end.
Proof.
  intros p.
  pose proof (process_file_unparsed args f w) as Hunparsed. cbv zeta in Hunparsed.
  fold p in Hunparsed.
  destruct (fs w !! p) as [[[root|raw]|]|] eqn:Hp;
    [|destruct Hunparsed as [e ->]; by eauto..].
  clear Hunparsed. cbv zeta. rewrite (process_file_run args f w root Hp). fold p.
  pose proof (update_paths_frame (old_path args) (new_path args) root
                (backed_up_world args p root w)) as (_ & Hfs & _).
  destruct (update_paths (old_path args) (new_path args)
              (root, backed_up_world args p root w)) as [[[]|e] [tree' wr']];
    cbn [fs snd fst backed_up_world] in *.
  - destruct (serializer_overflows tree'); cbn [fst snd fs]; rewrite Hfs.
    + right. by exists tree'.
    + by exists tree', wr'.
  - destruct e; by try left.
Qed.

(** X7: when the turn of [main] for a project file returns, the backup
    holds the document as it was read, unless a backup was there already,
    which is kept; the project file holds what [tree.write] made of the
    tree [update_paths] left, which differs from the document read at most
    in the attributes that are rewritten; and no other path has changed. *)
Theorem process_file_result args f w root :
  let p := os_path_join (xges_path args) f in
  fs w !! p = Some (File (Doc root)) →
  (process_file args f w).1 = Ok tt →
  fs (process_file args f w).2 !! (p +:+ ".original")
  = match fs w !! (p +:+ ".original") with
    | Some n => Some n
    | None => Some (File (Doc root))
    end
  ∧ (∃ tree' wr wr',
       fs (process_file args f w).2 !! p = Some (File (serialized tree'))
       ∧ update_paths (old_path args) (new_path args) (root, wr)
         = (Ok tt, (tree', wr'))
       ∧ outside tree' = outside root
       ∧ ∀ q, q ≠ p +:+ ".original" → fs wr !! q = fs w !! q)
  ∧ ∀ q, q ≠ p → q ≠ p +:+ ".original" →
         fs (process_file args f w).2 !! q = fs w !! q.
Proof.
  intros p Hp Hok. pose proof (process_file_fs args f w) as H. cbv zeta in H.
  fold p in H. rewrite Hp, Hok in H. destruct H as (tree' & wr' & -> & Hrun).
  unfold backed_up.
  split; [|split].
  - rewrite lookup_insert_ne by (intros E; by apply (backup_path_fresh p)).
    destruct (fs w !! (p +:+ ".original")) as [n|] eqn:Hb; [done|].
    by rewrite lookup_insert_eq.
  - exists tree', (backed_up_world args p root w), wr'. rewrite lookup_insert_eq.
    split; [done|]. split; [done|]. split.
    + pose proof (update_paths_frame (old_path args) (new_path args) root
                    (backed_up_world args p root w)) as (Hout & _ & _).
      by rewrite Hrun in Hout.
    + intros q Hq. cbn [fs backed_up_world]. unfold backed_up.
      destruct (fs w !! (p +:+ ".original")); [done|]. by rewrite lookup_insert_ne.
  - intros q Hq1 Hq2. rewrite lookup_insert_ne by done.
    destruct (fs w !! (p +:+ ".original")); [done|]. by rewrite lookup_insert_ne.
Qed.

(** X8: when the turn of [main] for a file ends with an exception the
    content of the file gives rise to (it is not well-formed, an asset or a
    clip lacks its attribute, a URI does not split), the project file holds
    what it held, and so does every other path but the backup, which may
    have been made: [tree.write] has not been reached. *)
Theorem process_file_failure args f w e :
  (process_file args f w).1 = Raise e → of_the_document e →
  ∀ q, q ≠ os_path_join (xges_path args) f +:+ ".original" →
       fs (process_file args f w).2 !! q = fs w !! q.
Proof.
  intros Hraise He q Hq. pose proof (process_file_fs args f w) as H. cbv zeta in H.
  rewrite Hraise in H.
  destruct (fs w !! os_path_join (xges_path args) f) as [[[root|raw]|]|];
    [|by destruct H as [-> _]..].
  assert (fs (process_file args f w).2
          = backed_up (fs w) (os_path_join (xges_path args) f) (Doc root)) as ->
    by (by destruct e).
  unfold backed_up.
  destruct (fs w !! (os_path_join (xges_path args) f +:+ ".original")); [done|].
  by rewrite lookup_insert_ne.
Qed.

(** A file that is there, other than the project file itself, comes out of
    the turn as it went in. *)
Lemma process_file_keeps args f w q :
  q ≠ os_path_join (xges_path args) f → is_Some (fs w !! q) →
  fs (process_file args f w).2 !! q = fs w !! q.
Proof.
  intros Hq [n Hn]. pose proof (process_file_fs args f w) as H. cbv zeta in H.
  destruct (fs w !! os_path_join (xges_path args) f) as [[[root|raw]|]|];
    [|by destruct H as [-> _]..].
  assert (backed_up (fs w) (os_path_join (xges_path args) f) (Doc root) !! q
          = fs w !! q) as Hbacked.
  { unfold backed_up.
    destruct (fs w !! (os_path_join (xges_path args) f +:+ ".original")) eqn:Hb;
      [done|].
    rewrite lookup_insert_ne; [done|]. intros <-. congruence. }
  destruct (process_file args f w).1 as [[]|e].
  - destruct H as (tree' & wr' & -> & _). by rewrite lookup_insert_ne.
  - assert (fs (process_file args f w).2
            = backed_up (fs w) (os_path_join (xges_path args) f) (Doc root)
            ∨ ∃ tree', fs (process_file args f w).2
                       = <[os_path_join (xges_path args) f := File (serialized tree')]>
                           (backed_up (fs w) (os_path_join (xges_path args) f)
                              (Doc root)))
      as [->|[tree' ->]] by (destruct e; eauto); [done|].
    by rewrite lookup_insert_ne.
Qed.

Lemma process_files_keep args xges_files w q :
  is_Some (fs w !! q) →
  (∀ f, f ∈ xges_files → q ≠ os_path_join (xges_path args) f) →
  fs (for_each xges_files (process_file args) w).2 !! q = fs w !! q.
Proof.
  intros Hq Hother.
  apply (for_each_invariant (λ w', fs w' !! q = fs w !! q)); [|done].
  intros f w' Hf Hw'. rewrite <-Hw'. apply process_file_keeps; [by apply Hother|].
  by rewrite Hw'.
Qed.

(** X9: whatever its outcome, a run of [main] leaves every file that was
    there and is not one of the project files as it was: media files are
    not touched, and a backup that exists is not overwritten. *)
Theorem main_keeps_other_files args xges_files w q :
  is_Some (fs w !! q) →
  (∀ f, f ∈ xges_files → q ≠ os_path_join (xges_path args) f) →
  fs (main args xges_files w).2 !! q = fs w !! q.
Proof. apply process_files_keep. Qed.

Lemma for_each_app {S A} (xs ys : list A) (body : A → M S unit) s :
  for_each (xs ++ ys) body s =
    match for_each xs body s with
    | (Ok _, s1) => for_each ys body s1
    | (Raise e, s1) => (Raise e, s1)
    end.
Proof.
  revert s. induction xs as [|x xs IH]; intros s; [done|].
  rewrite <-app_comm_cons, !for_each_cons.
  destruct (body x s) as [[[]|e] s1]; [apply IH | done].
Qed.

(** X10: the first file whose turn raises ends the run: the exception is
    the outcome of [main], and the files after it are not looked at, so that
    the world is the one that turn left. *)
Theorem main_stops_at_first_error args done f rest w w1 w2 e :
  main args done w = (Ok tt, w1) →
  process_file args f w1 = (Raise e, w2) →
  main args (done ++ f :: rest) w = (Raise e, w2).
Proof.
  unfold main. intros Hdone Hf. by rewrite for_each_app, Hdone, for_each_cons, Hf.
Qed.

(** ** More on [update_uri] *)

Lemma startswith_split old : ∀ s,
  PyStr.startswith old s = true → old +:+ PyStr.drop (String.length old) s = s.
Proof.
  induction old as [|c old IH]; intros [|b s] H; simpl in H; try done.
  apply andb_true_iff in H as [Hc Hs]. apply bool_decide_eq_true_1 in Hc as ->.
  rewrite app_cons. simpl. by rewrite IH.
Qed.

(** Replacing a fragment by itself changes nothing. *)
Lemma replace1_same old s : PyStr.replace1 old old s = s.
Proof.
  induction s as [|c s IH]; rewrite replace1_unfold;
    destruct (PyStr.startswith old _) eqn:Hs;
    [by apply startswith_split | done | by apply startswith_split | by rewrite IH].
Qed.

(** X11: with the old fragment as the new one, [update_uri] checks the
    decoded path as it is: when it exists the URI comes back with the path
    re-encoded, and otherwise with its components as they were, after the
    warning. *)
Theorem update_uri_same_fragment old u parts w :
  urlsplit u = Ok parts → scheme parts = "file" →
  update_uri old old u w =
    match fs w !! Urllib.unquote (path parts) with
    | Some _ =>
        (Ok (Urllib.urlunsplit
               (set_path (Urllib.quote (Urllib.unquote (path parts))) parts)), w)
    | None => (Ok (Urllib.urlunsplit parts), warned (Urllib.unquote (path parts)) w)
    end.
Proof.
  intros Hsplit Hscheme.
  rewrite (update_uri_file old old u parts w Hsplit Hscheme). cbv zeta.
  by rewrite replace1_same.
Qed.

Lemma app_empty_r s : s +:+ "" = s.
Proof. induction s as [|c s IH]; [done|]. by rewrite app_cons, IH. Qed.

Lemma app_assoc_string s t u : (s +:+ t) +:+ u = s +:+ t +:+ u.
Proof. induction s as [|c s IH]; [done|]. by rewrite !app_cons, IH. Qed.

Lemma forallb_cons P c s : PyStr.forallb P (String c s) = P c && PyStr.forallb P s.
Proof. reflexivity. Qed.

Lemma forallb_app P s t :
  PyStr.forallb P (s +:+ t) = PyStr.forallb P s && PyStr.forallb P t.
Proof.
  induction s as [|c s IH]; [done|].
  by rewrite app_cons, !forallb_cons, IH, andb_assoc.
Qed.

(** What [quote] writes for a byte is ASCII, and [unquote_to_bytes] reads
    the byte back from it. *)
Lemma quote_byte_ascii c : PyStr.forallb PyStr.is_ascii (Urllib.quote_byte c) = true.
Proof. by destruct c as [[] [] [] [] [] [] [] []]. Qed.

Lemma unquote_quote_byte c rest :
  Urllib.unquote_to_bytes (Urllib.quote_byte c +:+ rest)
  = String c (Urllib.unquote_to_bytes rest).
Proof. by destruct c as [[] [] [] [] [] [] [] []]. Qed.

Lemma quote_ascii s : PyStr.forallb PyStr.is_ascii (Urllib.quote s) = true.
Proof.
  induction s as [|c s IH]; [done|]. simpl.
  by rewrite forallb_app, quote_byte_ascii, IH.
Qed.

Lemma unquote_to_bytes_quote s : Urllib.unquote_to_bytes (Urllib.quote s) = s.
Proof.
  induction s as [|c s IH]; [done|]. simpl. by rewrite unquote_quote_byte, IH.
Qed.

Lemma decode_replace_ascii s :
  PyStr.forallb PyStr.is_ascii s = true → Urllib.decode_replace s = s.
Proof.
  induction s as [|c s IH]; [done|]. rewrite forallb_cons.
  intros [Hc Hs]%andb_true_iff. simpl. unfold PyStr.is_ascii in Hc. rewrite Hc.
  by rewrite IH.
Qed.

Lemma unquote_to_bytes_plain s :
  PyStr.contains "%" s = false → Urllib.unquote_to_bytes s = s.
Proof.
  induction s as [|c s IH]; [done|]. rewrite contains_unfold. simpl.
  intros [Hc Hs]%orb_false_iff. rewrite andb_true_r in Hc.
  apply bool_decide_eq_false_1 in Hc.
  rewrite bool_decide_eq_false_2 by congruence. by rewrite IH.
Qed.

Lemma unquote_runs_ascii s : ∀ run,
  PyStr.forallb PyStr.is_ascii s = true →
  Urllib.unquote_runs run s
  = Urllib.decode_replace (Urllib.unquote_to_bytes (run +:+ s)).
Proof.
  induction s as [|c s IH]; intros run; [by rewrite app_empty_r|].
  rewrite forallb_cons. intros [Hc Hs]%andb_true_iff. simpl. rewrite Hc.
  by rewrite IH, app_assoc_string.
Qed.

(** On ASCII text [unquote] is the decoding of what [unquote_to_bytes]
    gives. *)
Lemma unquote_ascii s :
  PyStr.forallb PyStr.is_ascii s = true →
  Urllib.unquote s = Urllib.decode_replace (Urllib.unquote_to_bytes s).
Proof.
  intros Hs. unfold Urllib.unquote.
  destruct (PyStr.contains "%" s) eqn:Hpercent.
  - by rewrite unquote_runs_ascii.
  - by rewrite unquote_to_bytes_plain, decode_replace_ascii.
Qed.

(** [unquote] undoes [quote] on well-formed text, the text [decode_replace]
    leaves as it is. *)
Lemma unquote_quote s :
  Urllib.decode_replace s = s → Urllib.unquote (Urllib.quote s) = s.
Proof.
  intros Hs. by rewrite unquote_ascii, unquote_to_bytes_quote by apply quote_ascii.
Qed.

(** X12: when [update_uri] rewrites a [file] URI, the path it writes into
    the URI decodes to the very path it found on disk, for a path that is
    well-formed text. *)
Theorem update_uri_writes_found_path old new u parts w :
  urlsplit u = Ok parts → scheme parts = "file" →
  Urllib.decode_replace (PyStr.replace1 old new (Urllib.unquote (path parts)))
  = PyStr.replace1 old new (Urllib.unquote (path parts)) →
  is_Some (fs w !! PyStr.replace1 old new (Urllib.unquote (path parts))) →
  ∃ written,
    update_uri old new u w = (Ok (Urllib.urlunsplit (set_path written parts)), w)
    ∧ Urllib.unquote written = PyStr.replace1 old new (Urllib.unquote (path parts))
    ∧ is_Some (fs w !! Urllib.unquote written).
Proof.
  intros Hsplit Hscheme Htext [n Hn].
  exists (Urllib.quote (PyStr.replace1 old new (Urllib.unquote (path parts)))).
  rewrite (update_uri_file old new u parts w Hsplit Hscheme). cbv zeta.
  rewrite Hn, (unquote_quote _ Htext), Hn. by eauto.
Qed.

Lemma find_absent c p :
  PyStr.forallb (λ b, negb (PyStr.char_in b split_chars)) p = true →
  PyStr.char_in c split_chars = true → PyStr.find c p = None.
Proof.
  intros Hp Hc. induction p as [|b p IH]; [done|].
  rewrite forallb_cons in Hp. apply andb_true_iff in Hp as [Hb Hp]. simpl.
  rewrite bool_decide_eq_false_2; [by rewrite IH|].
  intros ->. by rewrite Hc in Hb.
Qed.

Lemma remove_char_absent c p : PyStr.find c p = None → PyStr.remove_char c p = p.
Proof.
  induction p as [|b p IH]; [done|]. simpl. case_bool_decide; [done|].
  destruct (PyStr.find c p); [done|]. intros _. by rewrite IH.
Qed.

Lemma remove_unsafe_plain p :
  PyStr.forallb (λ b, negb (PyStr.char_in b split_chars)) p = true →
  Urllib.remove_unsafe p = p.
Proof.
  intros Hp. unfold Urllib.remove_unsafe.
  rewrite (remove_char_absent "009") by (apply find_absent; [done | by vm_compute]).
  rewrite (remove_char_absent "013") by (apply find_absent; [done | by vm_compute]).
  by rewrite (remove_char_absent "010") by (apply find_absent; [done | by vm_compute]).
Qed.

(** [urlsplit] on a [file] URI without host that carries a plain path. *)
Lemma urlsplit_plain p :
  plain_path p = true → urlsplit ("file://" +:+ p) = Ok (file_parts p).
Proof.
  unfold plain_path. intros [[Hslash Hdouble]%andb_true_iff Hp]%andb_true_iff.
  unfold urlsplit.
  change (PyStr.lstrip Urllib.c0_control_or_space ("file://" +:+ p))
    with ("file://" +:+ p).
  assert (Urllib.remove_unsafe ("file://" +:+ p) = "file://" +:+ p) as ->.
  { change (Urllib.remove_unsafe ("file://" +:+ p))
      with ("file://" +:+ Urllib.remove_unsafe p).
    by rewrite remove_unsafe_plain. }
  change (Urllib.split_scheme ("file://" +:+ p)) with ("file", "//" +:+ p).
  cbv beta iota.
  change (PyStr.startswith "//" ("//" +:+ p)) with true. cbv iota.
  destruct p as [|c p]; [done|]. simpl in Hslash.
  apply andb_true_iff in Hslash as [Hc _]. apply bool_decide_eq_true_1 in Hc as <-.
  change (Urllib.splitnetloc ("//" +:+ String "/" p)) with ("", String "/" p).
  cbv beta iota zeta.
  change (PyStr.contains "[" "") with false.
  change (PyStr.contains "]" "") with false.
  cbv beta iota zeta delta [andb orb negb].
  unfold PyStr.split1.
  rewrite (find_absent "#" (String "/" p)) by (done || by vm_compute).
  cbn [mbind option_bind]. cbv beta iota zeta.
  rewrite (find_absent "?" (String "/" p)) by (done || by vm_compute).
  cbn [mbind option_bind]. cbv beta iota zeta.
  by unfold checknetloc.
Qed.

Lemma urlunsplit_plain p :
  plain_path p = true → Urllib.urlunsplit (file_parts p) = "file://" +:+ p.
Proof.
  unfold plain_path. intros [[Hslash Hdouble]%andb_true_iff _]%andb_true_iff.
  unfold Urllib.urlunsplit, file_parts. cbn [netloc scheme path query fragment].
  rewrite Hdouble, Hslash.
  rewrite (bool_decide_eq_false_2 ("" ≠ "")) by (by intros H; apply H).
  rewrite (bool_decide_eq_true_2 ("file" ≠ "")) by done.
  rewrite (bool_decide_eq_true_2 ("file" ∈ Urllib.uses_netloc))
    by (by vm_compute; repeat constructor).
  by rewrite andb_false_r.
Qed.

(** X13: a [file] URI of the form [file://] followed by a plain absolute
    path, whose substituted path does not exist, comes back from
    [update_uri] as the very string it was, after the warning. *)
Theorem update_uri_missing_path_plain old new p w :
  plain_path p = true →
  fs w !! PyStr.replace1 old new (Urllib.unquote p) = None →
  update_uri old new ("file://" +:+ p) w
  = (Ok ("file://" +:+ p), warned (PyStr.replace1 old new (Urllib.unquote p)) w).
Proof.
  intros Hplain Hmissing.
  rewrite (update_uri_file old new _ (file_parts p) w (urlsplit_plain p Hplain) eq_refl).
  cbv zeta. cbn [path file_parts]. by rewrite Hmissing, urlunsplit_plain.
Qed.

Lemma update_uri_remote old new u w : remote u → update_uri old new u w = (Ok u, w).
Proof.
  intros (parts & Hsplit & Hscheme). unfold update_uri. rewrite Hsplit.
  by rewrite bool_decide_eq_false_2.
Qed.

(** Writing the value an attribute has changes nothing. *)
Lemma modify_at_same key value r : ∀ t,
  attrib_at r t ≫= (.!! key) = Some value →
  modify_at (set_attrib key value) r t = t.
Proof.
  unfold attrib_at. induction r as [|i r IH]; intros [t a x y cs] H; simpl in *.
  - f_equal. by apply insert_id.
  - f_equal. apply list_eq. intros j. destruct (decide (i = j)) as [<-|Hij].
    + rewrite list_lookup_alter_eq. destruct (cs !! i) as [c|]; [|done]. simpl in *.
      by rewrite IH.
    + by rewrite list_lookup_alter_ne.
Qed.

Lemma for_each_fixed {S A} (xs : list A) (body : A → M S unit) s :
  (∀ x, x ∈ xs → body x s = (Ok tt, s)) → for_each xs body s = (Ok tt, s).
Proof.
  induction xs as [|x xs IH]; intros H; [done|].
  rewrite for_each_cons, (H x) by left. apply IH. intros x' Hx'. apply H. by right.
Qed.

(** X14: a document whose assets and clips below the root all name remote
    media, URIs with another scheme than [file], comes out of [update_paths]
    as it went in: the run returns, the tree is the same, and nothing is
    printed or looked up. *)
Theorem update_paths_leaves_remote_document old new t w :
  remote_document t → update_paths old new (t, w) = (Ok tt, (t, w)).
Proof.
  intros Hdoc. rewrite update_paths_run.
  rewrite (for_each_fixed (findall "asset" t)).
  - apply for_each_fixed.
    intros r (Hr & e & He & Htag)%elem_of_findall.
    destruct (Hdoc r e Hr He) as [_ Hclip].
    destruct (Hclip Htag) as (asset_id & Hid & Hremote).
    rewrite update_clip_run. unfold attrib_at. rewrite He. simpl. rewrite Hid.
    rewrite (update_uri_remote old new asset_id w Hremote).
    rewrite modify_at_same; [done|]. unfold attrib_at. by rewrite He.
  - intros r (Hr & e & He & Htag)%elem_of_findall.
    destruct (Hdoc r e Hr He) as [Hasset _].
    destruct (Hasset Htag) as [(id & Hid & Hremote) Hproxy].
    rewrite update_asset_run. unfold attrib_at. rewrite He. simpl. rewrite Hid.
    rewrite (update_uri_remote old new id w Hremote). cbv zeta.
    assert (modify_at (set_attrib "id" id) r t = t) as ->.
    { apply modify_at_same. unfold attrib_at. by rewrite He. }
    destruct (attrib e !! "proxy-id") as [proxy|] eqn:Hp; [|done].
    case_bool_decide as Hne; [|done].
    rewrite (update_uri_remote old new proxy w (Hproxy proxy eq_refl Hne)).
    rewrite modify_at_same; [done|]. unfold attrib_at. by rewrite He.
Qed.

Lemma app_cancel_r x : ∀ s t, s +:+ x = t +:+ x → s = t.
Proof.
  induction s as [|c s IH]; intros [|d t] H; [done|..].
  - apply (f_equal String.length) in H. rewrite app_empty_l, app_cons in H.
    simpl in H. rewrite length_app in H. lia.
  - apply (f_equal String.length) in H. rewrite app_empty_l, app_cons in H.
    simpl in H. rewrite length_app in H. lia.
  - rewrite !app_cons in H. injection H as -> H. f_equal. by apply IH.
Qed.

(** The turn of [main] for a file changes no path but the file and its
    backup. *)
Lemma process_file_frame args f w q :
  q ≠ os_path_join (xges_path args) f →
  q ≠ os_path_join (xges_path args) f +:+ ".original" →
  fs (process_file args f w).2 !! q = fs w !! q.
Proof.
  intros Hq1 Hq2. pose proof (process_file_fs args f w) as H. cbv zeta in H.
  destruct (fs w !! os_path_join (xges_path args) f) as [[[root|raw]|]|];
    [|by destruct H as [-> _]..].
  assert (backed_up (fs w) (os_path_join (xges_path args) f) (Doc root) !! q
          = fs w !! q) as Hbacked.
  { unfold backed_up.
    destruct (fs w !! (os_path_join (xges_path args) f +:+ ".original")); [done|].
    by rewrite lookup_insert_ne. }
  destruct (process_file args f w).1 as [[]|e].
  - destruct H as (tree' & wr' & -> & _). by rewrite lookup_insert_ne.
  - assert (fs (process_file args f w).2
            = backed_up (fs w) (os_path_join (xges_path args) f) (Doc root)
            ∨ ∃ tree', fs (process_file args f w).2
                       = <[os_path_join (xges_path args) f := File (serialized tree')]>
                           (backed_up (fs w) (os_path_join (xges_path args) f)
                              (Doc root)))
      as [->|[tree' ->]] by (destruct e; eauto); [done|].
    by rewrite lookup_insert_ne.
Qed.

(** X15: after a run of [main] that returns, over project files that are
    all different and none of which is the backup of another, every project
    file was a well-formed document, holds what [tree.write] made of a tree
    that differs from that document at most in the rewritten attributes,
    and has a backup: the one that was there, or else the document as it
    was. *)
Theorem main_result args xges_files : ∀ w w',
  NoDup (os_path_join (xges_path args) <$> xges_files) →
  (∀ f g, f ∈ xges_files → g ∈ xges_files →
          os_path_join (xges_path args) g
          ≠ os_path_join (xges_path args) f +:+ ".original") →
  main args xges_files w = (Ok tt, w') →
  ∀ f, f ∈ xges_files →
    ∃ root tree',
      fs w !! os_path_join (xges_path args) f = Some (File (Doc root))
      ∧ fs w' !! os_path_join (xges_path args) f = Some (File (serialized tree'))
      ∧ outside tree' = outside root
      ∧ fs w' !! (os_path_join (xges_path args) f +:+ ".original")
        = match fs w !! (os_path_join (xges_path args) f +:+ ".original") with
          | Some n => Some n
          | None => Some (File (Doc root))
          end.
Proof.
  unfold main. induction xges_files as [|g files IH]; intros w w' Hdup Hapart Hrun f Hf.
  { by apply elem_of_nil in Hf. }
  rewrite for_each_cons in Hrun. rewrite fmap_cons in Hdup.
  apply NoDup_cons in Hdup as [Hg Hdup].
  destruct (process_file args g w) as [[[]|e] w1] eqn:Hturn; [|done].
  assert (∀ q, is_Some (fs w1 !! q) →
               (∀ h, h ∈ files → q ≠ os_path_join (xges_path args) h) →
               fs w' !! q = fs w1 !! q) as Hrest.
  { intros q Hq Hother.
    pose proof (process_files_keep args files w1 q Hq Hother) as Hkeep.
    by rewrite Hrun in Hkeep. }
  apply elem_of_cons in Hf as [->|Hf].
  - pose proof (process_file_fs args g w) as H. cbv zeta in H.
    rewrite Hturn in H. simpl in H.
    destruct (fs w !! os_path_join (xges_path args) g) as [[[root|raw]|]|];
      [|by destruct H as [_ [? ?]]..].
    destruct H as (tree' & wr' & Hfs1 & Hpaths). unfold backed_up in Hfs1.
    exists root, tree'. split; [done|].
    assert (fs w1 !! os_path_join (xges_path args) g = Some (File (serialized tree')))
      as Hfile by (by rewrite Hfs1, lookup_insert_eq).
    assert (fs w1 !! (os_path_join (xges_path args) g +:+ ".original")
            = match fs w !! (os_path_join (xges_path args) g +:+ ".original") with
              | Some n => Some n
              | None => Some (File (Doc root))
              end) as Hbackup.
    { rewrite Hfs1, lookup_insert_ne by (intros E; by apply (backup_path_fresh _ (eq_sym E))).
      destruct (fs w !! (os_path_join (xges_path args) g +:+ ".original")) eqn:Hb;
        [done|].
      by rewrite lookup_insert_eq. }
    split; [|split].
    + rewrite Hrest; [done|by rewrite Hfile|].
      intros h Hh E. apply Hg. rewrite E. by apply list_elem_of_fmap_2.
    + pose proof (update_paths_frame (old_path args) (new_path args) root
                    (backed_up_world args (os_path_join (xges_path args) g) root w))
        as (Hout & _ & _).
      by rewrite Hpaths in Hout.
    + rewrite Hrest; [done| |].
      * rewrite Hbackup.
        by destruct (fs w !! (os_path_join (xges_path args) g +:+ ".original")).
      * intros h Hh E. apply (Hapart g h); [left|by right|done].
  - assert (os_path_join (xges_path args) f ≠ os_path_join (xges_path args) g) as Hfg.
    { intros E. apply Hg. rewrite <-E. by apply list_elem_of_fmap_2. }
    destruct (IH w1 w' Hdup) with (f := f) as (root & tree' & Hroot & Htree & Hout & Hb);
      [|done|done|].
    { intros f1 g1 Hf1 Hg1. apply Hapart; by right. }
    exists root, tree'.
    pose proof (process_file_frame args g w (os_path_join (xges_path args) f) Hfg)
      as Hsame.
    rewrite Hturn in Hsame. simpl in Hsame.
    rewrite <-Hsame by (apply Hapart; [left | by right]).
    split; [done|]. split; [done|]. split; [done|]. rewrite Hb.
    pose proof (process_file_frame args g w
      (os_path_join (xges_path args) f +:+ ".original")) as Hsameb.
    rewrite Hturn in Hsameb. simpl in Hsameb. rewrite Hsameb; [done| |].
    + apply not_eq_sym, Hapart; [by right | left].
    + intros E. by apply Hfg, (app_cancel_r ".original").
Qed.

End Mover.

(** ** The theorems at work on the sample data *)

Lemma update_uri_missing_path_witness :
  update_uri any_host as_written "old" "new" clip_uri (world_of ∅)
  = (Ok clip_uri, warned "/media/new/clip1.mp4" (world_of ∅)).
Proof.
  exact (update_uri_missing_path any_host as_written "old" "new" clip_uri
           (file_parts "/media/old/clip1.mp4") (world_of ∅) eq_refl eq_refl eq_refl).
Defined.

(** C1 as stated fails: a [file] URI written with one slash, whose
    substituted path does not exist, does not come back as it was given. *)
Lemma update_uri_missing_path_not_input :
  urlsplit any_host as_written "file:/media/old/clip1.mp4"
  = Ok (file_parts "/media/old/clip1.mp4")
  ∧ fs (world_of ∅)
      !! PyStr.replace1 "old" "new" (Urllib.unquote "/media/old/clip1.mp4") = None
  ∧ update_uri any_host as_written "old" "new" "file:/media/old/clip1.mp4" (world_of ∅)
    = (Ok "file:///media/old/clip1.mp4", warned "/media/new/clip1.mp4" (world_of ∅))
  ∧ "file:///media/old/clip1.mp4" ≠ "file:/media/old/clip1.mp4".
Proof. repeat split; by vm_compute. Qed.

Lemma update_uri_other_scheme_witness :
  update_uri any_host as_written "old" "new"
    "http://example.com/media/old/clip%201.mp4?take=2#t10" (world_of moved_media)
  = (Ok "http://example.com/media/old/clip%201.mp4?take=2#t10", world_of moved_media).
Proof.
  apply (update_uri_other_scheme any_host as_written "old" "new" _
           {| scheme := "http"; netloc := "example.com";
              path := "/media/old/clip%201.mp4"; query := "take=2";
              fragment := "t10" |}); by vm_compute.
Defined.

Lemma update_uri_replaces_leftmost_witness :
  PyStr.replace1 "old" "new" (Urllib.unquote "/Old/old/old%20clip.mp4")
  = "/Old/new/old clip.mp4"
  ∧ update_uri any_host as_written "old" "new" "file:///Old/old/old%20clip.mp4"
      (world_of {[ "/Old/new/old clip.mp4" := File (Raw "video") ]})
    = (Ok "file:///Old/new/old%20clip.mp4",
       world_of {[ "/Old/new/old clip.mp4" := File (Raw "video") ]}).
Proof.
  apply (update_uri_replaces_leftmost any_host as_written "old" "new"
           "file:///Old/old/old%20clip.mp4" (file_parts "/Old/old/old%20clip.mp4")
           "/Old/" "/old clip.mp4"); [by vm_compute..|].
  intros m Hm. do 5 (destruct m as [|m]; [reflexivity|]). simpl in Hm. lia.
Defined.

Lemma update_uri_reencodes_witness :
  update_uri any_host as_written "old" "new" "file:///media/take%7E1.mp4"
    (world_of {[ "/media/take~1.mp4" := File (Raw "video") ]})
  = (Ok "file:///media/take~1.mp4",
     world_of {[ "/media/take~1.mp4" := File (Raw "video") ]}).
Proof.
  apply (proj1 (update_uri_reencodes any_host as_written) "old" "new"
           "file:///media/take%7E1.mp4" (file_parts "/media/take%7E1.mp4"));
    [by vm_compute..|].
  vm_compute. eauto.
Defined.

Lemma backup_file_creates_backup_witness :
  (∃ c, fs (world_of project_files) !! "proj/good.xges" = Some (File c)
        ∧ fs (backup_file "proj/good.xges" (world_of project_files)).2
            !! "proj/good.xges" = Some (File c)
        ∧ fs (backup_file "proj/good.xges" (world_of project_files)).2
            !! "proj/good.xges.original" = Some (File c))
  ∧ ∃ w', backup_file "proj/good.xges" (world_of project_files) = (Ok tt, w').
Proof.
  pose proof (backup_file_creates_backup "proj/good.xges" (world_of project_files)
                eq_refl) as [Hboth Hruns].
  split.
  - apply Hboth. by vm_compute.
  - apply (Hruns (Doc sample_project)). by vm_compute.
Defined.

Lemma backup_file_idempotent_witness :
  ∃ c, fs (world_of project_files) !! "proj/good.xges" = Some (File c)
       ∧ fs (backup_file "proj/good.xges" (world_of project_files)).2
         = <["proj/good.xges.original" := File c]> project_files
       ∧ fs (backup_file "proj/good.xges" (world_of project_files)).2
           !! "proj/good.xges" = Some (File c)
       ∧ backup_file "proj/good.xges"
           (backup_file "proj/good.xges" (world_of project_files)).2
         = (Ok tt,
            {| fs := fs (backup_file "proj/good.xges" (world_of project_files)).2;
               stdout :=
                 stdout (backup_file "proj/good.xges" (world_of project_files)).2
                 ++ [skip_line "proj/good.xges"];
               journal :=
                 journal (backup_file "proj/good.xges" (world_of project_files)).2 |}).
Proof.
  apply (proj2 (backup_file_idempotent "proj/good.xges") (world_of project_files));
    by vm_compute.
Defined.

Lemma update_paths_rewrites_assets_witness :
  ∃ e', lookup_at [0; 0; 0]
          (update_paths any_host as_written "old" "new"
             (sample_project, world_of moved_proxies)).2.1 = Some e'
    ∧ attrib e' !! "id" = Some clip_uri
    ∧ attrib e' !! "proxy-id" = Some "file:///proxies/new/clip1.proxy.mp4".
Proof.
  destruct (update_paths_rewrites_assets any_host as_written "old" "new"
              sample_project (world_of moved_proxies)
              (update_paths any_host as_written "old" "new"
                 (sample_project, world_of moved_proxies)).2.1
              (update_paths any_host as_written "old" "new"
                 (sample_project, world_of moved_proxies)).2.2
              ltac:(by vm_compute) [0; 0; 0]
              (leaf "asset" {[ "id" := clip_uri;
                               "proxy-id" := "file:///proxies/old/clip1.proxy.mp4";
                               "extractable-type-name" := "GESUriClip" ]})
              ltac:(done) ltac:(by vm_compute) eq_refl)
    as (e' & He' & _ & (id & id' & Hid & Hid' & Hnew) & Hproxy).
  exists e'. split; [exact He'|].
  vm_compute in Hid. injection Hid as <-.
  vm_compute in Hid'. injection Hid' as <-.
  split; [exact Hnew|].
  vm_compute in Hproxy. destruct Hproxy as (proxy' & [= <-] & Hproxy). exact Hproxy.
Defined.

(** C9 as stated fails: an asset that is the root of the document is not
    among the elements [findall] yields, and keeps its [id] though
    [update_uri] would rewrite it. *)
Lemma update_paths_skips_root_asset :
  tag asset_at_root = "asset"
  ∧ attrib asset_at_root !! "id" = Some clip_uri
  ∧ update_uri_result any_host as_written moved_media "old" "new" clip_uri
    = Ok "file:///media/new/clip1.mp4"
  ∧ update_paths any_host as_written "old" "new" (asset_at_root, world_of moved_media)
    = (Ok tt, (asset_at_root, world_of moved_media)).
Proof. repeat split; by vm_compute. Qed.

Lemma update_paths_missing_attribute_witness :
  (∃ x, (update_paths any_host as_written "old" "new"
           (asset_without_id, world_of moved_media)).1 = Raise x
        ∧ (x = KeyError "id" ∨ x = KeyError "asset-id" ∨ x = ValueError))
  ∧ (∃ x, (update_paths any_host as_written "old" "new"
             (clip_without_asset_id, world_of moved_media)).1 = Raise x
          ∧ (x = KeyError "id" ∨ x = KeyError "asset-id" ∨ x = ValueError))
  ∧ update_asset any_host as_written "old" "new" [0]
      (asset_without_proxy, world_of moved_media)
    = (Ok tt,
       (modify_at (set_attrib "id" "file:///media/new/clip1.mp4") [0]
          asset_without_proxy,
        world_of moved_media)).
Proof.
  split; [|split].
  - apply (proj1 (update_paths_missing_attribute any_host as_written "old" "new"
                    asset_without_id (world_of moved_media))).
    exists [0], (leaf "asset" {[ "extractable-type-name" := "GESUriClip" ]}).
    split; [done|]. split; [reflexivity|]. left. by vm_compute.
  - apply (proj1 (update_paths_missing_attribute any_host as_written "old" "new"
                    clip_without_asset_id (world_of moved_media))).
    exists [0], (leaf "clip" {[ "start" := "0" ]}).
    split; [done|]. split; [reflexivity|]. right. by vm_compute.
  - apply (proj2 (update_paths_missing_attribute any_host as_written "old" "new"
                    asset_without_proxy (world_of moved_media))
             [0] (leaf "asset" {[ "id" := clip_uri ]}) clip_uri);
      by vm_compute.
Defined.

(** C5 as stated fails: an asset without [id] that is the root of the
    document is never looked at, and [update_paths] returns. *)
Lemma update_paths_accepts_bare_root_asset :
  tag bare_asset_at_root = "asset"
  ∧ attrib bare_asset_at_root !! "id" = None
  ∧ update_paths any_host as_written "old" "new"
      (bare_asset_at_root, world_of moved_media)
    = (Ok tt, (bare_asset_at_root, world_of moved_media)).
Proof. repeat split; by vm_compute. Qed.

(** C6 as stated fails: [main] parses a file before it backs it up.  A
    file that does not parse shows it: [backup_file] on its own makes a
    backup of such a file and prints its line, but the run of [main] ends
    with the exception of the parse, no backup made and nothing printed.
    The journal of a run over a file that parses says the same. *)
Lemma main_parses_before_backup :
  main any_host as_written read_back within_stack sample_arguments ["bad.xges"]
    (world_of project_files)
  = (Raise (ParseError "proj/bad.xges"),
     {| fs := project_files; stdout := []; journal := [Parse "proj/bad.xges"] |})
  ∧ project_files !! "proj/bad.xges.original" = None
  ∧ backup_file "proj/bad.xges" (world_of project_files)
    = (Ok tt,
       {| fs := <["proj/bad.xges.original" := File (Raw "<ges")]> project_files;
          stdout := [move_line "proj/bad.xges"]; journal := [] |})
  ∧ journal (main any_host as_written read_back within_stack sample_arguments
               ["good.xges"] (world_of project_files)).2
    = [Parse "proj/good.xges"; Backup "proj/good.xges";
       Rewrite "proj/good.xges"; Persist "proj/good.xges"]
  ∧ steps_of_spec sample_arguments ["good.xges"]
    = [Backup "proj/good.xges"; Parse "proj/good.xges";
       Rewrite "proj/good.xges"; Persist "proj/good.xges"]
  ∧ journal (main any_host as_written read_back within_stack sample_arguments
               ["good.xges"] (world_of project_files)).2
    ≠ steps_of_spec sample_arguments ["good.xges"].
Proof. repeat split; by vm_compute. Qed.

Lemma main_steps_in_order_witness :
  ∃ tree' wr' out,
    update_paths any_host as_written "old" "new"
      (sample_project,
       backed_up_world sample_arguments "proj/good.xges" sample_project
         (world_of project_files))
    = (Ok tt, (tree', wr'))
    ∧ fs (process_file any_host as_written read_back within_stack sample_arguments
            "good.xges" (world_of project_files)).2
      = <["proj/good.xges" := File (read_back tree')]>
          (backed_up project_files "proj/good.xges" (Doc sample_project))
    ∧ stdout (process_file any_host as_written read_back within_stack
                sample_arguments "good.xges" (world_of project_files)).2
      = [] ++ [backup_line project_files "proj/good.xges";
               changing_line sample_arguments "proj/good.xges"]
        ++ out ++ [done_line]
    ∧ only_warnings (backed_up project_files "proj/good.xges" (Doc sample_project)) out.
Proof.
  exact (proj1 (proj2 (proj2 (main_steps_in_order any_host as_written read_back
                                within_stack sample_arguments)))
           "good.xges" (world_of project_files) sample_project
           (process_file any_host as_written read_back within_stack sample_arguments
              "good.xges" (world_of project_files)).2
           ltac:(by vm_compute) ltac:(by vm_compute)).
Defined.

Lemma update_paths_rewrites_clips_witness :
  ∃ e' asset_id asset_id',
    lookup_at [0; 1; 0; 0]
      (update_paths any_host as_written "old" "new"
         (sample_project, world_of moved_media)).2.1 = Some e'
    ∧ attrib (leaf "clip" {[ "asset-id" := clip_uri; "start" := "0" ]}) !! "asset-id"
      = Some asset_id
    ∧ update_uri_result any_host as_written (fs (world_of moved_media)) "old" "new"
        asset_id = Ok asset_id'
    ∧ attrib e'
      = <["asset-id" := asset_id']>
          (attrib (leaf "clip" {[ "asset-id" := clip_uri; "start" := "0" ]})).
Proof.
  apply (update_paths_rewrites_clips any_host as_written "old" "new"
           sample_project (world_of moved_media) _
           (update_paths any_host as_written "old" "new"
              (sample_project, world_of moved_media)).2.2);
    by vm_compute.
Defined.

Lemma update_paths_keeps_references_witness :
  ∃ asset' clip' uri',
    lookup_at [0; 0; 0]
      (update_paths any_host as_written "old" "new"
         (sample_project, world_of moved_media)).2.1 = Some asset'
    ∧ lookup_at [0; 1; 0; 0]
        (update_paths any_host as_written "old" "new"
           (sample_project, world_of moved_media)).2.1 = Some clip'
    ∧ attrib asset' !! "id" = Some uri'
    ∧ attrib clip' !! "asset-id" = Some uri'.
Proof.
  apply (update_paths_keeps_references any_host as_written "old" "new"
           sample_project (world_of moved_media) _
           (update_paths any_host as_written "old" "new"
              (sample_project, world_of moved_media)).2.2
           ltac:(by vm_compute) [0; 0; 0]
           (leaf "asset" {[ "id" := clip_uri;
                            "proxy-id" := "file:///proxies/old/clip1.proxy.mp4";
                            "extractable-type-name" := "GESUriClip" ]})
           [0; 1; 0; 0]
           (leaf "clip" {[ "asset-id" := clip_uri; "start" := "0" ]}) clip_uri);
    by vm_compute.
Defined.

Lemma update_paths_returns_iff_witness :
  rewritable_document any_host as_written sample_project.
Proof.
  apply (proj1 (update_paths_returns_iff any_host as_written "old" "new"
                  sample_project (world_of moved_media))).
  by vm_compute.
Defined.

Lemma backup_file_missing_original_witness :
  backup_file "proj/gone.xges" (world_of project_files)
  = (Raise (FileNotFoundError "proj/gone.xges"),
     {| fs := project_files; stdout := [move_line "proj/gone.xges"]; journal := [] |}).
Proof.
  apply (backup_file_missing_original "proj/gone.xges" (world_of project_files));
    by vm_compute.
Defined.

Lemma backup_file_keeps_other_paths_witness :
  fs (backup_file "proj/good.xges" (world_of project_files)).2 !! "proj/bad.xges"
  = Some (File (Raw "<ges")).
Proof.
  rewrite (backup_file_keeps_other_paths "proj/good.xges" (world_of project_files)
             "proj/bad.xges"); by vm_compute.
Defined.

Lemma process_file_result_witness :
  fs (process_file any_host as_written read_back within_stack sample_arguments "good.xges"
        (world_of project_files)).2 !! "proj/good.xges.original"
  = Some (File (Doc sample_project)).
Proof.
  apply (process_file_result any_host as_written read_back within_stack sample_arguments "good.xges"
           (world_of project_files) sample_project); by vm_compute.
Defined.

Lemma process_file_failure_witness :
  fs (process_file any_host as_written read_back within_stack sample_arguments "bad.xges"
        (world_of project_files)).2 !! "proj/bad.xges"
  = Some (File (Raw "<ges")).
Proof.
  rewrite (process_file_failure any_host as_written read_back within_stack sample_arguments "bad.xges"
             (world_of project_files) (ParseError "proj/bad.xges"));
    by vm_compute.
Defined.

Lemma main_keeps_other_files_witness :
  fs (main any_host as_written read_back within_stack sample_arguments ["good.xges"]
        (world_of project_files)).2 !! "proj/bad.xges"
  = Some (File (Raw "<ges")).
Proof.
  rewrite (main_keeps_other_files any_host as_written read_back within_stack sample_arguments ["good.xges"]
             (world_of project_files) "proj/bad.xges").
  - by vm_compute.
  - vm_compute. eauto.
  - intros f ->%list_elem_of_singleton. by vm_compute.
Defined.

Lemma main_stops_at_first_error_witness :
  (main any_host as_written read_back within_stack sample_arguments ["good.xges"; "bad.xges"; "late.xges"]
     (world_of project_files)).1
  = Raise (ParseError "proj/bad.xges").
Proof.
  exact (f_equal fst
    (main_stops_at_first_error any_host as_written read_back within_stack sample_arguments
       ["good.xges"] "bad.xges" ["late.xges"] (world_of project_files)
       (main any_host as_written read_back within_stack sample_arguments ["good.xges"]
          (world_of project_files)).2
       (process_file any_host as_written read_back within_stack sample_arguments "bad.xges"
          (main any_host as_written read_back within_stack sample_arguments ["good.xges"]
             (world_of project_files)).2).2
       (ParseError "proj/bad.xges") ltac:(by vm_compute) ltac:(by vm_compute))).
Defined.

Lemma update_uri_same_fragment_witness :
  update_uri any_host as_written "clip" "clip" "file:///media/new/clip%31.mp4"
    (world_of moved_media)
  = (Ok "file:///media/new/clip1.mp4", world_of moved_media).
Proof.
  rewrite (update_uri_same_fragment any_host as_written "clip"
             "file:///media/new/clip%31.mp4" (file_parts "/media/new/clip%31.mp4"));
    by vm_compute.
Defined.

Lemma update_uri_writes_found_path_witness :
  ∃ written,
    update_uri any_host as_written "old" "new" "file:///media/old/clip%201.mp4"
      (world_of {[ "/media/new/clip 1.mp4" := File (Raw "video") ]})
    = (Ok (Urllib.urlunsplit (set_path written (file_parts "/media/old/clip%201.mp4"))),
       world_of {[ "/media/new/clip 1.mp4" := File (Raw "video") ]})
    ∧ Urllib.unquote written
      = PyStr.replace1 "old" "new" (Urllib.unquote "/media/old/clip%201.mp4")
    ∧ is_Some (fs (world_of {[ "/media/new/clip 1.mp4" := File (Raw "video") ]})
               !! Urllib.unquote written).
Proof.
  apply (update_uri_writes_found_path any_host as_written "old" "new"
           "file:///media/old/clip%201.mp4" (file_parts "/media/old/clip%201.mp4"));
    [by vm_compute..|].
  vm_compute. eauto.
Defined.

Lemma update_uri_missing_path_plain_witness :
  update_uri any_host as_written "old" "new" "file:///media/old/clip%201.mp4"
    (world_of moved_media)
  = (Ok "file:///media/old/clip%201.mp4",
     warned "/media/new/clip 1.mp4" (world_of moved_media)).
Proof.
  apply (update_uri_missing_path_plain any_host as_written "old" "new"
           "/media/old/clip%201.mp4" (world_of moved_media));
    by vm_compute.
Defined.

Lemma remote_project_is_remote : remote_document any_host as_written remote_project.
Proof.
  assert (remote any_host as_written "http://example.com/media/old/clip1.mp4")
    as Hremote.
  { eexists. split; [by vm_compute | done]. }
  intros r e Hr He. destruct r as [|i r]; [done|].
  destruct i as [|[|i]]; simpl in He; [| |done].
  - destruct r as [|j r]; [|by destruct j]. injection He as <-.
    split; intros Htag; [|by vm_compute in Htag].
    split; [exists "http://example.com/media/old/clip1.mp4"; by split|].
    intros proxy Hproxy Hne. vm_compute in Hproxy. by injection Hproxy as <-.
  - destruct r as [|j r]; [|by destruct j]. injection He as <-.
    split; intros Htag; [by vm_compute in Htag|].
    exists "http://example.com/media/old/clip1.mp4". by split.
Defined.

Lemma update_paths_leaves_remote_document_witness :
  update_paths any_host as_written "old" "new" (remote_project, world_of moved_media)
  = (Ok tt, (remote_project, world_of moved_media)).
Proof.
  apply (update_paths_leaves_remote_document any_host as_written).
  apply remote_project_is_remote.
Defined.

Lemma main_result_witness :
  ∃ root tree',
    fs (world_of project_files) !! os_path_join (xges_path sample_arguments) "good.xges"
    = Some (File (Doc root))
    ∧ fs (main any_host as_written read_back within_stack sample_arguments ["good.xges"]
            (world_of project_files)).2
        !! os_path_join (xges_path sample_arguments) "good.xges"
      = Some (File (read_back tree'))
    ∧ outside tree' = outside root
    ∧ fs (main any_host as_written read_back within_stack sample_arguments ["good.xges"]
            (world_of project_files)).2
        !! (os_path_join (xges_path sample_arguments) "good.xges" +:+ ".original")
      = match fs (world_of project_files)
                !! (os_path_join (xges_path sample_arguments) "good.xges"
                    +:+ ".original") with
        | Some n => Some n
        | None => Some (File (Doc root))
        end.
Proof.
  apply (main_result any_host as_written read_back within_stack sample_arguments ["good.xges"]
           (world_of project_files)).
  - apply NoDup_singleton.
  - intros f g ->%list_elem_of_singleton ->%list_elem_of_singleton. by vm_compute.
  - by vm_compute.
  - by apply list_elem_of_singleton.
Defined.

(** ** The library functions on sample inputs *)

Example urlsplit_sample :
  urlsplit any_host as_written "FILE://host/media/a%20b.mp4?x=1#t"
  = Ok {| scheme := "file"; netloc := "host"; path := "/media/a%20b.mp4";
          query := "x=1"; fragment := "t" |}.
Proof. reflexivity. Qed.

Example urlsplit_unmatched_bracket :
  urlsplit any_host as_written "http://[::1/x" = Raise ValueError.
Proof. reflexivity. Qed.

Example unquote_sample :
  Urllib.unquote "/a%20b%2Fc%7e%zz%4%41" = "/a b/c~%zz%4A".
Proof. reflexivity. Qed.

Example unquote_ill_formed :
  Urllib.unquote "%FFa%C3" = Urllib.replacement +:+ "a" +:+ Urllib.replacement.
Proof. reflexivity. Qed.

Example quote_sample : Urllib.quote "/a b/c~d:e" = "/a%20b/c~d%3Ae".
Proof. reflexivity. Qed.

Example replace1_sample : PyStr.replace1 "old" "new" "/Old/old/old" = "/Old/new/old".
Proof. reflexivity. Qed.

Example findall_sample :
  findall "asset"
    (Elem "asset" ∅ None None
       [Elem "asset" ∅ None None [leaf "clip" ∅]; Elem "x" ∅ None None [leaf "asset" ∅]])
  = [[0]; [1; 0]].
Proof. reflexivity. Qed.
